(** * Bagging ensemble of [networks/squeezenet/squeezenet_bagging.py]

    A shallow embedding of the two algorithmic parts of the script:
    [bagging_loader] (the bootstrap sampler) and [models_bagging] (the
    ensemble aggregator), together with the parts of Python, [random] and
    [torch] they call.

    Conventions of the embedding.
    - A float, of Python or of a tensor, is a rational or one of the
      non-finite values [PInf], [NInf] and [NaN].  The operations that
      round (the sum and the quotient of tensors, the product of Python
      floats) come twice: exact, in [aggregate] and [bagging_loader], and
      with the rounding left open, in [aggregate_f] and
      [bagging_loader_f], of which the exact ones are instances.  [round]
      and [torch.round] are exact on every float and are modelled as such.
    - An exception is a value of [exn]; code that can raise returns a
      [result].
    - A tensor is one-dimensional and is the list of its entries; binary
      tensor operations follow the broadcasting rule of the library.
    - The generator behind the module [random] is passed explicitly. *)

From Stdlib Require Import Ascii String List ZArith QArith Qround Lia Bool Arith.
From Stdlib Require Import Permutation Qabs Lqa.
Import ListNotations.

Set Implicit Arguments.
Local Open Scope nat_scope.

(** ** Python: exceptions, [round], [sum] *)

Module Py.

Inductive exn : Set :=
| ValueError
| RuntimeError
| TypeError
| ZeroDivisionError
| IndexError
| UnboundLocalError
| OverflowError.

Inductive result (A : Type) : Type :=
| Ok (a : A)
| Raise (e : exn).

Arguments Ok {A} a.
Arguments Raise {A} e.

Definition bind {A B : Type} (c : result A) (k : A -> result B) : result B :=
  match c with
  | Ok a => k a
  | Raise e => Raise e
  end.

Definition is_ok {A : Type} (c : result A) : bool :=
  match c with
  | Ok _ => true
  | Raise _ => false
  end.

(** Traversal of a list by a function that can raise: the first exception
    wins, as in a comprehension. *)
Fixpoint mapM {A B : Type} (f : A -> result B) (l : list A) : result (list B) :=
  match l with
  | [] => Ok []
  | a :: l' =>
      bind (f a) (fun b => bind (mapM f l') (fun bs => Ok (b :: bs)))
  end.

(** [round(x)] with one argument: the nearest integer, a tie going to the
    even neighbour.  [torch.round] breaks ties the same way. *)
Definition round (x : Q) : Z :=
  let f := Qfloor x in
  match ((x - inject_Z f) ?= (1 # 2))%Q with
  | Lt => f
  | Gt => (f + 1)%Z
  | Eq => if Z.even f then f else (f + 1)%Z
  end.

End Py.

Import Py.

Declare Scope py_scope.
Notation "x <- c ;; k" := (bind c (fun x => k))
  (at level 61, c at next level, right associativity) : py_scope.
Local Open Scope py_scope.

(** ** torch: scalars, tensors, broadcasting *)

Module Torch.

(** An entry of a float tensor. *)
Inductive Scalar : Type :=
| Num (q : Q)
| PInf
| NInf
| NaN.

Definition Tensor : Type := list Scalar.

Definition sadd (x y : Scalar) : Scalar :=
  match x, y with
  | NaN, _ | _, NaN => NaN
  | PInf, NInf | NInf, PInf => NaN
  | PInf, _ | _, PInf => PInf
  | NInf, _ | _, NInf => NInf
  | Num a, Num b => Num (a + b)%Q
  end.

(** Division of an entry by a Python [int] that is a length. *)
Definition sdiv_nat (n : nat) (x : Scalar) : Scalar :=
  match x with
  | NaN => NaN
  | PInf => PInf
  | NInf => NInf
  | Num a =>
      match n with
      | O => match (a ?= 0)%Q with
             | Gt => PInf
             | Lt => NInf
             | Eq => NaN
             end
      | S _ => Num (a / inject_Z (Z.of_nat n))%Q
      end
  end.

(** [torch.round] on one entry. *)
Definition sround (x : Scalar) : Scalar :=
  match x with
  | Num a => Num (inject_Z (Py.round a))
  | _ => x
  end.

(** [==] on two entries. *)
Definition seqb (x y : Scalar) : bool :=
  match x, y with
  | Num a, Num b => Qeq_bool a b
  | PInf, PInf => true
  | NInf, NInf => true
  | _, _ => false
  end.

(** [.float()] on one entry of a bool tensor. *)
Definition of_bool (b : bool) : Scalar := if b then Num 1%Q else Num 0%Q.

(** An elementwise binary operation on two one-dimensional tensors: the
    lengths must be equal, or one of them must be 1 and that operand is
    expanded; otherwise the library raises [RuntimeError]. *)
Definition broadcast {A : Type} (f : Scalar -> Scalar -> A) (a b : Tensor)
  : result (list A) :=
  if Nat.eqb (length a) (length b) then Ok (map (fun p => f (fst p) (snd p)) (combine a b))
  else match a, b with
       | [x], _ => Ok (map (f x) b)
       | _, [y] => Ok (map (fun x => f x y) a)
       | _, _ => Raise RuntimeError
       end.

Definition add (a b : Tensor) : result Tensor := broadcast sadd a b.

Definition eq (a b : Tensor) : result (list bool) := broadcast seqb a b.

Definition float (t : list bool) : Tensor := map of_bool t.

Definition cat (a b : Tensor) : Tensor := a ++ b.

(** [torch.mean] of a one-dimensional tensor: the sum of the entries over
    their number, [NaN] for the empty tensor. *)
Definition mean (t : Tensor) : Scalar :=
  sdiv_nat (length t) (fold_left sadd t (Num 0%Q)).

End Torch.

Import Torch.

(** ** Values of the local [total] of [models_bagging] *)

Inductive pyobj : Type :=
| PyInt (z : Z)
| PyFloat (x : Scalar)
| PyTensor (t : Tensor).

(** [acc + t] where [t] is a tensor: an [int] on the left is added to every
    entry (through [Tensor.__radd__]). *)
Definition py_add (acc : pyobj) (t : Tensor) : result pyobj :=
  match acc with
  | PyInt z => Ok (PyTensor (map (fun x => sadd x (Num (inject_Z z))) t))
  | PyFloat y => Ok (PyTensor (map (fun x => sadd x y) t))
  | PyTensor a => r <- Torch.add a t ;; Ok (PyTensor r)
  end.

(** The builtin [sum]: a left fold of [+] from the [int] 0. *)
Definition py_sum (value : list Tensor) : result pyobj :=
  fold_left (fun acc t => a <- acc ;; py_add a t) value (Ok (PyInt 0)).

(** [total / n] for a length [n]. *)
Definition py_truediv (total : pyobj) (n : nat) : result pyobj :=
  match total with
  | PyInt z =>
      match n with
      | O => Raise ZeroDivisionError
      | S _ => Ok (PyFloat (Num (inject_Z z / inject_Z (Z.of_nat n))%Q))
      end
  | PyFloat x =>
      match n with
      | O => Raise ZeroDivisionError
      | S _ => Ok (PyFloat (sdiv_nat n x))
      end
  | PyTensor t => Ok (PyTensor (map (sdiv_nat n) t))
  end.

(** [torch.round(x)]: the argument must be a tensor. *)
Definition torch_round (x : pyobj) : result Tensor :=
  match x with
  | PyTensor t => Ok (map sround t)
  | _ => Raise TypeError
  end.

(** ** The aggregation step of [models_bagging] (lines 278 to 281)

    [value] is [pred_dic.values()] in insertion order, [nmodels] is
    [len(model_list_logits)] and [labels_tensor] the ground truth. *)

Record Aggregate : Type := {
  pred_list : Tensor;
  test_acc : Scalar
}.

(** [total / len(model_list_logits)], the consensus probabilities. *)
Definition consensus (value : list Tensor) (nmodels : nat) : result pyobj :=
  total <- py_sum value ;;
  py_truediv total nmodels.

Definition aggregate (value : list Tensor) (nmodels : nat)
  (labels_tensor : option Tensor) : result Aggregate :=
  c <- consensus value nmodels ;;
  pred_list <- torch_round c ;;
  labels <- match labels_tensor with
            | Some l => Ok l
            | None => Raise UnboundLocalError
            end ;;
  hits <- Torch.eq pred_list labels ;;
  Ok {| pred_list := pred_list; test_acc := Torch.mean (Torch.float hits) |}.

(** ** The module [random]

    The generator is the sequence of its raw outputs and the number of
    them already consumed.  [randbelow n] consumes one output and reduces
    it into [range(n)]; the library instead draws again when an output is
    not below [n].  Which positions are drawn, and how many outputs that
    takes, is therefore not the library's; what is proved below of a
    sample holds for whatever positions are drawn. *)

Module Random.

Record Generator : Type := {
  raw : nat -> nat;
  cursor : nat
}.

Definition randbelow (n : nat) (g : Generator) : nat * Generator :=
  (raw g (cursor g) mod n, {| raw := raw g; cursor := S (cursor g) |}).

(** [pool[j] = x]; [j] is always a valid position where it is used. *)
Fixpoint list_set (j : nat) (x : nat) (pool : list nat) : list nat :=
  match pool, j with
  | [], _ => []
  | _ :: pool', O => x :: pool'
  | y :: pool', S j' => y :: list_set j' x pool'
  end.

(** The selection loop of [random.sample] over a copy [pool] of the
    population: at step [i] a position [j] below [n - i] is drawn,
    [pool[j]] is selected and the last live entry [pool[n - i - 1]] is
    moved into the vacancy.  [k] counts the steps left.  (For a sample
    that is small against the population the library selects by
    rejection into a set instead, with the same kind of result; the
    pool loop stands for both.) *)
Fixpoint sample_pool (n : nat) (pool : list nat) (i k : nat) (g : Generator)
  : list nat * Generator :=
  match k with
  | O => ([], g)
  | S k' =>
      let (j, g1) := randbelow (n - i) g in
      let selected := nth j pool O in
      let pool1 := list_set j (nth (n - i - 1) pool O) pool in
      let (rest, g2) := sample_pool n pool1 (S i) k' g1 in
      (selected :: rest, g2)
  end.

(** [random.sample(population, k)]: [ValueError] unless [0 <= k <= n]. *)
Definition sample (population : list nat) (k : Z) (g : Generator)
  : result (list nat) * Generator :=
  let n := length population in
  if ((0 <=? k)%Z && (k <=? Z.of_nat n)%Z)%bool
  then let (r, g') := sample_pool n population 0 (Z.to_nat k) g in (Ok r, g')
  else (Raise ValueError, g).

(** [torch.randperm(n)]: all of [range(n)] drawn without replacement. *)
Definition randperm (n : nat) (g : Generator) : list nat * Generator :=
  sample_pool n (seq 0 n) 0 n g.

End Random.

Import Random.

(** ** The dataset *)

Record Path : Type := {
  parent_name : string;
  name : string
}.

Record CovidDataset : Type := {
  images : list Path
}.

Definition len (dataset : CovidDataset) : nat := length (images dataset).

(** [CovidDataset.__getitem__]: the image (here its path, the evaluation
    transform being a fixed function of the file) and the label, 1 for a
    file whose directory is [CT_COVID] and 0 otherwise. *)
Definition getitem (dataset : CovidDataset) (index : nat) : result (Path * Z) :=
  match nth_error (images dataset) index with
  | None => Raise IndexError
  | Some img_path =>
      let label := if String.eqb (parent_name img_path) "CT_COVID" then 1%Z else 0%Z in
      Ok (img_path, label)
  end.

(** ** [torch.utils.data]: samplers and [DataLoader] *)

Inductive Sampler : Type :=
| SequentialSampler (n : nat)
| RandomSampler (n : nat)
| SubsetRandomSampler (indices : list nat).

Record DataLoader : Type := {
  dataset : CovidDataset;
  sampler : Sampler;
  batch_size : nat;
  drop_last : bool
}.

(** [DataLoader(dataset, sampler=..., batch_size=..., drop_last=...,
    shuffle=...)]: a sampler and [shuffle] exclude each other; without a
    sampler, [shuffle] chooses between the random and the sequential one,
    and the random one refuses an empty dataset. *)
Definition DataLoader_init (dataset : CovidDataset) (sampler : option Sampler)
  (batch_size : nat) (drop_last shuffle : bool) : result DataLoader :=
  match sampler, shuffle with
  | Some _, true => Raise ValueError
  | Some s, false =>
      Ok {| dataset := dataset; sampler := s;
            batch_size := batch_size; drop_last := drop_last |}
  | None, true =>
      match len dataset with
      | O => Raise ValueError
      | S _ =>
          Ok {| dataset := dataset; sampler := RandomSampler (len dataset);
                batch_size := batch_size; drop_last := drop_last |}
      end
  | None, false =>
      Ok {| dataset := dataset; sampler := SequentialSampler (len dataset);
            batch_size := batch_size; drop_last := drop_last |}
  end.

(** The indices a sampler yields in one pass; [tg] is torch's generator. *)
Definition sampler_iter (s : Sampler) (tg : Generator) : list nat * Generator :=
  match s with
  | SequentialSampler n => (seq 0 n, tg)
  | RandomSampler n => randperm n tg
  | SubsetRandomSampler indices =>
      let (perm, tg') := randperm (length indices) tg in
      (map (fun i => nth i indices O) perm, tg')
  end.

(** [BatchSampler.__iter__]: [batch] is the batch being filled. *)
Fixpoint batch_sampler_iter (batch_size : nat) (drop_last : bool)
  (batch : list nat) (indices : list nat) : list (list nat) :=
  match indices with
  | [] =>
      if ((0 <? length batch)%nat && negb drop_last)%bool then [batch] else []
  | idx :: rest =>
      let batch := batch ++ [idx] in
      if Nat.eqb (length batch) batch_size
      then batch :: batch_sampler_iter batch_size drop_last [] rest
      else batch_sampler_iter batch_size drop_last batch rest
  end.

(** A batch as the loop of [models_bagging] sees it: the inputs and the
    tensor of their labels. *)
Definition Batch : Type := (list Path * Tensor)%type.

Definition fetch (dataset : CovidDataset) (batch : list nat) : result Batch :=
  samples <- mapM (getitem dataset) batch ;;
  Ok (map fst samples, map (fun s => Num (inject_Z (snd s))) samples).

(** One pass over a loader. *)
Definition loader_iter (loader : DataLoader) (tg : Generator)
  : result (list Batch) * Generator :=
  let (indices, tg') := sampler_iter (sampler loader) tg in
  (mapM (fetch (dataset loader))
        (batch_sampler_iter (batch_size loader) (drop_last loader) [] indices),
   tg').

(** ** The script *)

Definition BATCH_SIZE : nat := 8.

Definition MODEL_LIST : list nat := [3%nat].

(** A trained member.  [probability x] is [torch.sigmoid(model(x))] for the
    sample [x]: the logistic function has no rational values, so the
    composite is the datum. *)
Record SqueezenetTransferLearning : Type := {
  probability : Path -> Scalar
}.

(** [bagging_loader(dataset, percent, shuffle)], default [percent = 0.6]
    and [shuffle = False]; [g] is the generator of [random]. *)
Definition bagging_loader (dataset : CovidDataset) (percent : Q) (shuffle : bool)
  (g : Generator) : result DataLoader * Generator :=
  let size := Py.round (percent * inject_Z (Z.of_nat (len dataset)))%Q in
  let (idx, g') := Random.sample (seq 0 (len dataset)) size g in
  (idx <- idx ;;
   DataLoader_init dataset (Some (SubsetRandomSampler idx)) BATCH_SIZE true shuffle,
   g').

(** The bag of a loader made by [bagging_loader]. *)
Definition bag (loader : DataLoader) : list nat :=
  match sampler loader with
  | SubsetRandomSampler indices => indices
  | SequentialSampler n | RandomSampler n => seq 0 n
  end.

(** [pred_dic]: a dict keeps its keys in insertion order, and assigning to
    a key that is present keeps its place. *)
Definition dict : Type := list (nat * Tensor).

Fixpoint dict_set (key : nat) (v : Tensor) (d : dict) : dict :=
  match d with
  | [] => [(key, v)]
  | (k, w) :: d' =>
      if Nat.eqb k key then (k, v) :: d' else (k, w) :: dict_set key v d'
  end.

Definition dict_values (d : dict) : list Tensor := map snd d.

(** The locals the loops of [models_bagging] update. *)
Record Locals : Type := {
  pred_dic : dict;
  labels_tensor : option Tensor
}.

(** The loop over the batches for the model at position [key] of
    [model_list_logits] (every loaded model is an object of its own, so
    [model_list_logits.index(model)] is its position). *)
Definition batch_loop (model : SqueezenetTransferLearning) (key : nat)
  (batches : list Batch) (pred_dic : dict) : dict * Tensor :=
  let '(pred_dic, labels_tensor, _) :=
    fold_left
      (fun (st : dict * Tensor * Tensor) (b : Batch) =>
         let '(pred_dic, labels_tensor, logits_tensor) := st in
         let (input, labels) := b in
         let logits := map (probability model) input in
         let labels_tensor := Torch.cat labels_tensor labels in
         let logits_tensor := Torch.cat logits_tensor logits in
         (dict_set key logits_tensor pred_dic, labels_tensor, logits_tensor))
      batches (pred_dic, [], []) in
  (pred_dic, labels_tensor).

(** The loop over the models, from position [key] on. *)
Fixpoint model_loop (models : list SqueezenetTransferLearning) (key : nat)
  (test_loader : DataLoader) (st : Locals) (tg : Generator)
  : result Locals * Generator :=
  match models with
  | [] => (Ok st, tg)
  | model :: rest =>
      let (batches, tg1) := loader_iter test_loader tg in
      match batches with
      | Raise e => (Raise e, tg1)
      | Ok batches =>
          let (d, l) := batch_loop model key batches (pred_dic st) in
          model_loop rest (S key) test_loader
            {| pred_dic := d; labels_tensor := Some l |} tg1
      end
  end.

(** [models_bagging()]: the members are loaded from the directories of
    [model_list], evaluated over the global [test_loader], and aggregated.
    The model returns the locals [pred_list] and [test_acc]; the script
    prints the latter. *)
Definition models_bagging (model_list : list nat)
  (load_from_checkpoint : nat -> SqueezenetTransferLearning)
  (test_loader : DataLoader) (tg : Generator) : result Aggregate * Generator :=
  let model_list_logits := map load_from_checkpoint model_list in
  let (st, tg') :=
    model_loop model_list_logits 0 test_loader
      {| pred_dic := []; labels_tensor := None |} tg in
  (st <- st ;;
   aggregate (dict_values (pred_dic st)) (length model_list_logits) (labels_tensor st),
   tg').

(** The body of [if __name__ == "__main__"], for a given test set; the
    script runs it with [MODEL_LIST]. *)
Definition main (model_list : list nat)
  (load_from_checkpoint : nat -> SqueezenetTransferLearning)
  (testset : CovidDataset) (tg : Generator) : result Aggregate * Generator :=
  match DataLoader_init testset None BATCH_SIZE true false with
  | Raise e => (Raise e, tg)
  | Ok test_loader => models_bagging model_list load_from_checkpoint test_loader tg
  end.

(** [test_step] of a member: its own prediction from its probabilities,
    [pred = torch.round(logits)]. *)
Definition test_step_pred (logits : Tensor) : Tensor := map sround logits.

(** ** The specification's vocabulary *)

(** Two entries denote the same number. *)
Definition Scalar_eq (x y : Scalar) : Prop :=
  match x, y with
  | Num a, Num b => (a == b)%Q
  | PInf, PInf | NInf, NInf | NaN, NaN => True
  | _, _ => False
  end.

(** The members' probabilities at sample [i]. *)
Definition column (i : nat) (value : list Tensor) : list Scalar :=
  map (fun p => nth i p NaN) value.

(** Arithmetic mean: the sum of the numbers over how many they are. *)
Definition spec_mean (xs : list Scalar) : Scalar :=
  sdiv_nat (length xs) (fold_right sadd (Num 0%Q) xs).



(** ** Auxiliary notions of the proofs *)

(** The step of the fold of [sum]. *)
Definition sum_step (acc : result pyobj) (t : Tensor) : result pyobj :=
  a <- acc ;; py_add a t.


(** An entry that is not a probability. *)
Definition out_of_range (x : Scalar) : Prop :=
  match x with
  | Num q => (q < 0 \/ 1 < q)%Q
  | _ => True
  end.

(** The sample at a valid index. *)
Definition sample_at (dataset : CovidDataset) (i : nat) : Path * Z :=
  let img_path := nth i (images dataset) {| parent_name := ""; name := "" |} in
  (img_path, if String.eqb (parent_name img_path) "CT_COVID" then 1%Z else 0%Z).

(** The batch of valid indices [batch], collated. *)
Definition collate (dataset : CovidDataset) (batch : list nat) : Batch :=
  (map (fun i => fst (sample_at dataset i)) batch,
   map (fun i => Num (inject_Z (snd (sample_at dataset i)))) batch).

(** The loader built in [__main__]. *)
Definition test_loader (testset : CovidDataset) : DataLoader :=
  {| dataset := testset; sampler := SequentialSampler (len testset);
     batch_size := BATCH_SIZE; drop_last := true |}.

(** The index batches of one pass over it. *)
Definition test_batches (testset : CovidDataset) : list (list nat) :=
  batch_sampler_iter BATCH_SIZE true [] (seq 0 (len testset)).

(** What a model yields over the batches, concatenated. *)
Definition logits_of (model : SqueezenetTransferLearning) (batches : list Batch)
  : Tensor :=
  concat (map (fun b : Batch => map (probability model) (fst b)) batches).

(** The labels of the batches, concatenated. *)
Definition labels_of (batches : list Batch) : Tensor :=
  concat (map (fun b : Batch => snd b) batches).

(** The number of test samples in whole batches. *)
Definition evaluated (testset : CovidDataset) : nat :=
  BATCH_SIZE * (len testset / BATCH_SIZE).

(** The probabilities of the member loaded from directory [n] over the
    evaluated samples, and the labels of these samples. *)
Definition member_logits (load_from_checkpoint : nat -> SqueezenetTransferLearning)
  (testset : CovidDataset) (n : nat) : Tensor :=
  map (fun i => probability (load_from_checkpoint n) (fst (sample_at testset i)))
      (seq 0 (evaluated testset)).

Definition test_labels (testset : CovidDataset) : Tensor :=
  map (fun i => Num (inject_Z (snd (sample_at testset i))))
      (seq 0 (evaluated testset)).

(** ** The steps of a member and the construction of the dataset *)


(** [pathlib] on POSIX: a path is its root (empty, one slash or two) and
    its components after the root. *)
Module Pathlib.

Record PurePath : Type := {
  root : string;
  parts : list string
}.

(** [s.split("/")] *)
Fixpoint split (s : string) : list string :=
  match s with
  | EmptyString => [EmptyString]
  | String c s' =>
      if Ascii.eqb c "/"%char then EmptyString :: split s'
      else match split s' with
           | [] => [String c EmptyString]
           | w :: ws => String c w :: ws
           end
  end.

(** [s.lstrip("/")] *)
Fixpoint lstrip (s : string) : string :=
  match s with
  | EmptyString => EmptyString
  | String c s' => if Ascii.eqb c "/"%char then lstrip s' else s
  end.

(** [splitroot]: the root of a string and what follows it. *)
Definition splitroot (part : string) : string * string :=
  match part with
  | String c _ =>
      if Ascii.eqb c "/"%char
      then if Nat.eqb (String.length part - String.length (lstrip part)) 2
           then ("//"%string, lstrip part)
           else ("/"%string, lstrip part)
      else (""%string, part)
  | EmptyString => (""%string, part)
  end.

(** The components of a string: empty ones and [.] are dropped. *)
Definition components (rel : string) : list string :=
  filter (fun x => negb (String.eqb x "") && negb (String.eqb x "."))%bool
         (split rel).

(** [path / part]: a rooted [part] replaces the path, another one is
    appended to it. *)
Definition joinpath (path : PurePath) (part : string) : PurePath :=
  let (r, rel) := splitroot part in
  if String.eqb r ""
  then {| root := root path; parts := parts path ++ components rel |}
  else {| root := r; parts := components rel |}.

(** [path.parent] *)
Definition parent (path : PurePath) : PurePath :=
  match parts path with
  | [] => path
  | _ => {| root := root path; parts := removelast (parts path) |}
  end.

(** [path.name] *)
Definition name (path : PurePath) : string := last (parts path) ""%string.

End Pathlib.

(** What the dataset keeps of a path. *)
Definition path_of (p : Pathlib.PurePath) : Path :=
  {| parent_name := Pathlib.name (Pathlib.parent p); name := Pathlib.name p |}.

(** [CovidDataset.__init__]: [resolved] is [Path(root_dir).resolve()];
    [covid_names] and [noncovid_names] are what [read_text_labels] returns
    for the two label files. *)
Definition CovidDataset_init (resolved : Pathlib.PurePath)
  (covid_names noncovid_names : list string) : CovidDataset :=
  let covid_path := Pathlib.joinpath resolved "CT_COVID" in
  let noncovid_path := Pathlib.joinpath resolved "CT_NonCOVID" in
  let covid_images := map (fun img => Pathlib.joinpath covid_path img) covid_names in
  let noncovid_images :=
    map (fun img => Pathlib.joinpath noncovid_path img) noncovid_names in
  {| images := map path_of (covid_images ++ noncovid_images) |}.

(** A plain file name: not empty, not [.], without a slash. *)
Fixpoint no_slash (s : string) : bool :=
  match s with
  | EmptyString => true
  | String c s' => negb (Ascii.eqb c "/"%char) && no_slash s'
  end.

Definition plain_name (s : string) : bool :=
  (negb (String.eqb s "") && negb (String.eqb s ".") && no_slash s)%bool.

(** ** The aggregation step in the arithmetic of the tensors

    The tensors are float32: their addition and their division by a
    length round.  Here both are left open, so that what is proved of the
    step holds whatever they round to; [aggregate] above is the step with
    the exact operations [sadd] and [sdiv_nat]. *)

Section TensorArithmetic.

Variable fadd : Scalar -> Scalar -> Scalar.
Variable fdiv : Scalar -> nat -> Scalar.

Definition py_add_f (acc : pyobj) (t : Tensor) : result pyobj :=
  match acc with
  | PyInt z => Ok (PyTensor (map (fun x => fadd x (Num (inject_Z z))) t))
  | PyFloat y => Ok (PyTensor (map (fun x => fadd x y) t))
  | PyTensor a => r <- broadcast fadd a t ;; Ok (PyTensor r)
  end.

Definition py_sum_f (value : list Tensor) : result pyobj :=
  fold_left (fun acc t => a <- acc ;; py_add_f a t) value (Ok (PyInt 0)).

Definition py_truediv_f (total : pyobj) (n : nat) : result pyobj :=
  match total with
  | PyInt z =>
      match n with
      | O => Raise ZeroDivisionError
      | S _ => Ok (PyFloat (Num (inject_Z z / inject_Z (Z.of_nat n))%Q))
      end
  | PyFloat x =>
      match n with
      | O => Raise ZeroDivisionError
      | S _ => Ok (PyFloat (sdiv_nat n x))
      end
  | PyTensor t => Ok (PyTensor (map (fun x => fdiv x n) t))
  end.

Definition consensus_f (value : list Tensor) (nmodels : nat) : result pyobj :=
  total <- py_sum_f value ;;
  py_truediv_f total nmodels.

Definition aggregate_f (value : list Tensor) (nmodels : nat)
  (labels_tensor : option Tensor) : result Aggregate :=
  c <- consensus_f value nmodels ;;
  pred_list <- torch_round c ;;
  labels <- match labels_tensor with
            | Some l => Ok l
            | None => Raise UnboundLocalError
            end ;;
  hits <- Torch.eq pred_list labels ;;
  Ok {| pred_list := pred_list; test_acc := Torch.mean (Torch.float hits) |}.

(** The mean of the numbers [xs] in this arithmetic: their sum taken in
    order, the first one added to 0 as [sum] does, over their number. *)
Definition sum_f (xs : list Scalar) : Scalar :=
  match xs with
  | [] => Num 0%Q
  | x :: rest => fold_left fadd rest (fadd x (Num 0%Q))
  end.

Definition mean_f (xs : list Scalar) : Scalar := fdiv (sum_f xs) (length xs).

End TensorArithmetic.

(** ** [bagging_loader] in the arithmetic of Python's floats

    [percent * len(dataset)] is a product of binary64 floats.  [rnd] is
    the rounding of a real number to the nearest float, an infinity when
    it overflows; it is left open.  [bagging_loader] above is the function
    for a product that needs no rounding. *)

Section FloatArithmetic.

Variable rnd : Q -> Scalar.

(** [float(n)] for an [int]. *)
Definition float_of_int (n : Z) : Scalar := rnd (inject_Z n).

(** The product of two floats. *)
Definition float_mul (x y : Scalar) : Scalar :=
  match x, y with
  | NaN, _ | _, NaN => NaN
  | Num a, Num b => rnd (a * b)
  | PInf, Num b | Num b, PInf =>
      match (b ?= 0)%Q with Gt => PInf | Lt => NInf | Eq => NaN end
  | NInf, Num b | Num b, NInf =>
      match (b ?= 0)%Q with Gt => NInf | Lt => PInf | Eq => NaN end
  | PInf, PInf | NInf, NInf => PInf
  | PInf, NInf | NInf, PInf => NInf
  end.

(** [round(x)] for a float: an infinity has no integer, nor has NaN. *)
Definition py_round_float (x : Scalar) : result Z :=
  match x with
  | Num q => Ok (Py.round q)
  | PInf | NInf => Raise OverflowError
  | NaN => Raise ValueError
  end.

Definition bagging_loader_f (dataset : CovidDataset) (percent : Scalar)
  (shuffle : bool) (g : Generator) : result DataLoader * Generator :=
  match py_round_float (float_mul percent (float_of_int (Z.of_nat (len dataset)))) with
  | Raise e => (Raise e, g)
  | Ok size =>
      let (idx, g') := Random.sample (seq 0 (len dataset)) size g in
      (idx <- idx ;;
       DataLoader_init dataset (Some (SubsetRandomSampler idx)) BATCH_SIZE true shuffle,
       g')
  end.

End FloatArithmetic.



(** What [bagging_loader] does once the size of the bag is known. *)
Definition loader_of_size (dataset : CovidDataset) (size : Z) (shuffle : bool)
  (g : Generator) : result DataLoader * Generator :=
  let (idx, g') := Random.sample (seq 0 (len dataset)) size g in
  (idx <- idx ;;
   DataLoader_init dataset (Some (SubsetRandomSampler idx)) BATCH_SIZE true shuffle,
   g').

(** ** Inputs of the examples *)

Definition example_generator : Generator :=
  {| raw := fun i => (7 * i + 3)%nat; cursor := 0 |}.

Definition example_dataset (n : nat) : CovidDataset :=
  {| images :=
       map (fun i => {| parent_name := if Nat.even i then "CT_COVID" else "CT_NonCOVID";
                        name := "scan" |})
           (seq 0 n) |}.

Definition example_member (n : nat) : SqueezenetTransferLearning :=
  {| probability := fun p =>
       if String.eqb (parent_name p) "CT_COVID" then Num (6 # 10) else Num (1 # Pos.of_nat n) |}.

(** The result of the run of three members over 20 samples. *)
Definition example_result : Aggregate :=
  Eval vm_compute in
    match fst (main [3; 4; 5] example_member (example_dataset 20) example_generator) with
    | Ok r => r
    | Raise _ => {| pred_list := []; test_acc := NaN |}
    end.

(** ** Entries: equality up to the represented number *)

Lemma Scalar_eq_refl : forall x, Scalar_eq x x.
Proof. destruct x; simpl; auto. reflexivity. Qed.

Lemma Scalar_eq_sym : forall x y, Scalar_eq x y -> Scalar_eq y x.
Proof. destruct x, y; simpl; auto. intro H; symmetry; exact H. Qed.

Lemma Scalar_eq_trans :
  forall x y z, Scalar_eq x y -> Scalar_eq y z -> Scalar_eq x z.
Proof.
  destruct x, y, z; simpl; auto; try contradiction.
  intros H1 H2; rewrite H1; exact H2.
Qed.

Lemma sadd_compat :
  forall x x' y y', Scalar_eq x x' -> Scalar_eq y y' -> Scalar_eq (sadd x y) (sadd x' y').
Proof.
  destruct x, x', y, y'; simpl; auto; try contradiction.
  intros H1 H2; rewrite H1, H2; reflexivity.
Qed.

Lemma sadd_comm : forall x y, Scalar_eq (sadd x y) (sadd y x).
Proof. destruct x, y; simpl; auto. apply Qplus_comm. Qed.

Lemma sadd_assoc : forall x y z, Scalar_eq (sadd x (sadd y z)) (sadd (sadd x y) z).
Proof. destruct x, y, z; simpl; auto. apply Qplus_assoc. Qed.

Lemma sadd_zero_r : forall x, Scalar_eq (sadd x (Num 0%Q)) x.
Proof. destruct x; simpl; auto. apply Qplus_0_r. Qed.

Lemma sdiv_nat_compat :
  forall n x y, Scalar_eq x y -> Scalar_eq (sdiv_nat n x) (sdiv_nat n y).
Proof.
  destruct x, y; simpl; auto; try contradiction.
  intro H. destruct n.
  - rewrite H. destruct (q0 ?= 0)%Q; simpl; auto.
  - simpl. rewrite H. reflexivity.
Qed.

Lemma round_compat : forall a b, (a == b)%Q -> Py.round a = Py.round b.
Proof.
  intros a b H. unfold Py.round.
  rewrite (Qfloor_comp a b H).
  assert (E : ((a - inject_Z (Qfloor b)) ?= (1 # 2))%Q
              = ((b - inject_Z (Qfloor b)) ?= (1 # 2))%Q).
  { apply Qcompare_comp; [rewrite H|]; reflexivity. }
  rewrite E. reflexivity.
Qed.

Lemma sround_compat : forall x y, Scalar_eq x y -> sround x = sround y.
Proof.
  destruct x, y; simpl; auto; try contradiction.
  intro H. rewrite (round_compat H). reflexivity.
Qed.

Lemma fold_left_sadd_compat :
  forall xs a b, Scalar_eq a b ->
    Scalar_eq (fold_left sadd xs a) (fold_left sadd xs b).
Proof.
  induction xs as [|x xs IH]; simpl; intros a b H; auto.
  apply IH. apply sadd_compat; [exact H | apply Scalar_eq_refl].
Qed.

(** A left fold from [a] is [a] plus the right fold from 0. *)
Lemma fold_left_right_sadd :
  forall xs a,
    Scalar_eq (fold_left sadd xs a) (sadd a (fold_right sadd (Num 0%Q) xs)).
Proof.
  induction xs as [|x xs IH]; simpl; intro a.
  - apply Scalar_eq_sym, sadd_zero_r.
  - eapply Scalar_eq_trans; [apply IH|].
    apply Scalar_eq_sym, sadd_assoc.
Qed.

(** ** Tensor operations on operands of one length *)

Lemma broadcast_same_length :
  forall (A : Type) (f : Scalar -> Scalar -> A) (a b : Tensor),
    length a = length b ->
    broadcast f a b = Ok (map (fun p => f (fst p) (snd p)) (combine a b)).
Proof.
  intros A f a b H. unfold broadcast. rewrite H, Nat.eqb_refl. reflexivity.
Qed.

Lemma zip_length :
  forall (A : Type) (f : Scalar -> Scalar -> A) (a b : Tensor),
    length a = length b ->
    length (map (fun p => f (fst p) (snd p)) (combine a b)) = length a.
Proof.
  intros. rewrite length_map, length_combine. lia.
Qed.

Lemma zip_nth :
  forall (A : Type) (f : Scalar -> Scalar -> A) (a b : Tensor) (i : nat) (d : A),
    length a = length b -> i < length a ->
    nth i (map (fun p => f (fst p) (snd p)) (combine a b)) d
    = f (nth i a NaN) (nth i b NaN).
Proof.
  intros A f a. induction a as [|x a IH]; intros b i d Hl Hi; simpl in *; [lia|].
  destruct b as [|y b]; simpl in *; [discriminate|].
  destruct i as [|i]; simpl; [reflexivity|].
  apply IH; lia.
Qed.

Lemma sum_fold_tensor :
  forall (ps : list Tensor) (acc : Tensor) (M : nat),
    length acc = M ->
    Forall (fun p => length p = M) ps ->
    exists t,
      fold_left sum_step ps (Ok (PyTensor acc)) = Ok (PyTensor t) /\
      length t = M /\
      forall i, i < M ->
        nth i t NaN = fold_left sadd (column i ps) (nth i acc NaN).
Proof.
  induction ps as [|p ps IH]; intros acc M Hacc Hps.
  - exists acc. simpl. auto.
  - inversion Hps as [|? ? Hp Hps']; subst.
    simpl. unfold Torch.add.
    rewrite broadcast_same_length by congruence. simpl.
    destruct (IH (map (fun q => sadd (fst q) (snd q)) (combine acc p)) (length acc))
      as (t & Ht & Hlen & Hnth).
    + apply zip_length. congruence.
    + exact Hps'.
    + exists t. split; [exact Ht|]. split; [exact Hlen|].
      intros i Hi. rewrite (Hnth i Hi).
      rewrite zip_nth by (try congruence; exact Hi). reflexivity.
Qed.

Lemma py_sum_cons :
  forall (p : Tensor) (ps : list Tensor),
    py_sum (p :: ps)
    = fold_left sum_step ps (Ok (PyTensor (map (fun x => sadd x (Num 0%Q)) p))).
Proof. reflexivity. Qed.

(** The consensus of vectors of one length [M], entry by entry. *)
Lemma consensus_same_length :
  forall (value : list Tensor) (n M : nat),
    value <> [] ->
    Forall (fun p => length p = M) value ->
    exists c,
      consensus value n = Ok (PyTensor c) /\
      length c = M /\
      forall i, i < M ->
        Scalar_eq (nth i c NaN)
                  (sdiv_nat n (fold_right sadd (Num 0%Q) (column i value))).
Proof.
  intros value n M Hne Hall.
  destruct value as [|p ps]; [congruence|].
  inversion Hall as [|? ? Hp Hps]; subst.
  destruct (@sum_fold_tensor ps (map (fun x => sadd x (Num 0%Q)) p) (length p))
    as (t & Ht & Hlen & Hnth); [apply length_map | exact Hps |].
  exists (map (sdiv_nat n) t).
  unfold consensus. rewrite py_sum_cons, Ht. simpl.
  split; [reflexivity|]. split; [rewrite length_map; exact Hlen|].
  intros i Hi.
  change NaN with (sdiv_nat n NaN) at 1. rewrite map_nth.
  apply sdiv_nat_compat. rewrite (Hnth i Hi).
  eapply Scalar_eq_trans; [apply fold_left_right_sadd|].
  apply sadd_compat; [|apply Scalar_eq_refl].
  change NaN with (sadd NaN (Num 0%Q)) at 1.
  rewrite (map_nth (fun x => sadd x (Num 0%Q))).
  apply sadd_zero_r.
Qed.

(** ** Accuracy: the mean of a tensor of hits *)







(** ** The aggregation step on aligned vectors *)

(** An entry of a rounded tensor is the rounding of the entry. *)
Ltac nth_sround :=
  change NaN with (sround NaN) at 1; rewrite map_nth.

Lemma aggregate_of_consensus :
  forall (value : list Tensor) (n : nat) (c labels : Tensor),
    consensus value n = Ok (PyTensor c) ->
    length labels = length c ->
    aggregate value n (Some labels)
    = Ok {| pred_list := map sround c;
            test_acc :=
              Torch.mean (Torch.float
                (map (fun p => seqb (fst p) (snd p)) (combine (map sround c) labels))) |}.
Proof.
  intros value n c labels Hc Hl. unfold aggregate. rewrite Hc. simpl.
  unfold Torch.eq. rewrite broadcast_same_length by (rewrite length_map; lia).
  reflexivity.
Qed.

(** C5. With exactly one member, the consensus labels are that member's
    own prediction [torch.round(logits)], entry for entry and exactly, for
    every probability vector. *)
Theorem single_member_identity :
  forall p labels : Tensor,
    length labels = length p ->
    exists acc,
      aggregate [p] 1 (Some labels)
      = Ok {| pred_list := test_step_pred p; test_acc := acc |}.
Proof.
  intros p labels Hl.
  assert (Hc : consensus [p] 1
               = Ok (PyTensor (map (sdiv_nat 1) (map (fun x => sadd x (Num 0%Q)) p)))).
  { reflexivity. }
  assert (Hr : map sround (map (sdiv_nat 1) (map (fun x => sadd x (Num 0%Q)) p))
               = test_step_pred p).
  { unfold test_step_pred. rewrite !map_map. apply map_ext.
    intros [a| | |]; try reflexivity.
    simpl. rewrite (@round_compat ((a + 0) / inject_Z 1) a); [reflexivity|].
    unfold inject_Z. field. }
  eexists. rewrite (@aggregate_of_consensus _ _ _ labels Hc) by (rewrite !length_map; exact Hl).
  rewrite Hr. reflexivity.
Qed.

Lemma single_member_identity_witness :
  exists acc,
    aggregate [[Num (1 # 5); Num (9 # 10); Num (1 # 2)]] 1
              (Some [Num 0%Q; Num 1%Q; Num 1%Q])
    = Ok {| pred_list := test_step_pred [Num (1 # 5); Num (9 # 10); Num (1 # 2)];
            test_acc := acc |}.
Proof.
  apply (@single_member_identity [Num (1 # 5); Num (9 # 10); Num (1 # 2)]
                                 [Num 0%Q; Num 1%Q; Num 1%Q]).
  reflexivity.
Defined.





(** ** Lengths under broadcasting *)

Lemma broadcast_ok_length :
  forall (A : Type) (f : Scalar -> Scalar -> A) (a b : Tensor) (r : list A),
    broadcast f a b = Ok r ->
    (length a = length b /\ length r = length a) \/
    (length a = 1 /\ length r = length b) \/
    (length b = 1 /\ length r = length a).
Proof.
  intros A f a b r. unfold broadcast.
  destruct (Nat.eqb (length a) (length b)) eqn:E.
  - apply Nat.eqb_eq in E. intro H. injection H as <-.
    left. split; [exact E|]. rewrite length_map, length_combine. lia.
  - destruct a as [|x [|x' a]]; destruct b as [|y [|y' b]];
      intro H; try discriminate; injection H as <-;
      simpl in *; rewrite ?length_map; try discriminate; lia.
Qed.

Lemma broadcast_raise :
  forall (A : Type) (f : Scalar -> Scalar -> A) (a b : Tensor) (e : exn),
    broadcast f a b = Raise e -> e = RuntimeError.
Proof.
  intros A f a b e. unfold broadcast.
  destruct (Nat.eqb (length a) (length b)); [discriminate|].
  destruct a as [|x [|x' a]]; destruct b as [|y [|y' b]];
    intro H; try discriminate; injection H as <-; reflexivity.
Qed.

Lemma sum_fold_raise :
  forall (ps : list Tensor) (e : exn),
    fold_left sum_step ps (Raise e) = Raise e.
Proof. induction ps as [|p ps IH]; intro e; simpl; auto. Qed.

(** When the sum of tensors succeeds, every operand has the length of the
    result or length 1; when it fails, it fails with [RuntimeError]. *)
Lemma sum_fold_lengths :
  forall (ps : list Tensor) (acc : Tensor),
    match fold_left sum_step ps (Ok (PyTensor acc)) with
    | Ok r =>
        exists t, r = PyTensor t /\
          Forall (fun p => length p = length t \/ length p = 1) (acc :: ps)
    | Raise e => e = RuntimeError
    end.
Proof.
  induction ps as [|p ps IH]; intro acc.
  - simpl. exists acc. split; [reflexivity|]. constructor; auto.
  - simpl. unfold Torch.add.
    destruct (broadcast sadd acc p) as [acc'|e] eqn:E; simpl.
    + specialize (IH acc').
      destruct (fold_left sum_step ps (Ok (PyTensor acc'))) as [r|e]; [|exact IH].
      destruct IH as (t & -> & Hall). exists t. split; [reflexivity|].
      inversion Hall as [|? ? Hacc' Hps]; subst.
      apply broadcast_ok_length in E.
      constructor; [|constructor]; try exact Hps; lia.
    + rewrite sum_fold_raise. eapply broadcast_raise; exact E.
Qed.

(** The outcome of the aggregation step on a non-empty family: a result
    only if all the lengths other than 1 coincide, and no exception but
    [RuntimeError]. *)
Lemma aggregate_lengths :
  forall (value : list Tensor) (n : nat) (labels : Tensor),
    value <> [] ->
    match aggregate value n (Some labels) with
    | Ok r =>
        exists s,
          Forall (fun p => length p = s \/ length p = 1) value /\
          (length labels = s \/ length labels = 1 \/ s = 1)
    | Raise e => e = RuntimeError
    end.
Proof.
  intros value n labels Hne. destruct value as [|p ps]; [congruence|].
  unfold aggregate, consensus. rewrite py_sum_cons.
  pose proof (sum_fold_lengths ps (map (fun x => sadd x (Num 0%Q)) p)) as H.
  destruct (fold_left sum_step ps
              (Ok (PyTensor (map (fun x => sadd x (Num 0%Q)) p)))) as [r|e];
    [|exact H].
  destruct H as (t & -> & Hall). simpl. unfold Torch.eq.
  destruct (broadcast seqb (map sround (map (sdiv_nat n) t)) labels) as [hits|e] eqn:E;
    simpl.
  - exists (length t). split.
    + inversion Hall as [|? ? Hp Hps]; subst. rewrite length_map in Hp.
      constructor; assumption.
    + apply broadcast_ok_length in E. rewrite !length_map in E. lia.
  - eapply broadcast_raise; exact E.
Qed.

(** C3, counterexample. Member vectors of lengths 2 and 1 are not
    rejected: the shorter one is expanded and a result comes out. *)
Lemma misaligned_lengths_accepted :
  exists r,
    aggregate [[Num (1 # 5); Num (9 # 10)]; [Num (3 # 5)]] 2
              (Some [Num 0%Q; Num 1%Q]) = Ok r /\
    pred_list r = [Num 0%Q; Num 1%Q] /\
    length [Num (1 # 5); Num (9 # 10)] <> length [Num (3 # 5)].
Proof.
  eexists. split; [reflexivity|]. split; [reflexivity|]. discriminate.
Qed.

(** C3, amended. Nothing is validated before aggregating; when two of the
    vectors (members or ground truth) differ in length and neither has
    length 1, the aggregation step fails with the tensor library's
    [RuntimeError] and produces no result. *)
Theorem misaligned_lengths_raise :
  forall (value : list Tensor) (n : nat) (labels a b : Tensor),
    In a (labels :: value) ->
    In b (labels :: value) ->
    length a <> length b ->
    length a <> 1 ->
    length b <> 1 ->
    aggregate value n (Some labels) = Raise RuntimeError.
Proof.
  intros value n labels a b Ha Hb Hab Ha1 Hb1.
  assert (Hne : value <> []).
  { intro E. subst value. simpl in Ha, Hb.
    destruct Ha as [<-|[]]. destruct Hb as [<-|[]]. congruence. }
  pose proof (aggregate_lengths n labels Hne) as H.
  destruct (aggregate value n (Some labels)) as [r|e]; [|subst e; reflexivity].
  exfalso. destruct H as (s & Hall & Hl).
  rewrite Forall_forall in Hall.
  assert (Hs : forall x, In x (labels :: value) -> length x <> 1 ->
                 s <> 1 -> length x = s).
  { intros x [<-|Hx] Hx1 Hs1; [lia|]. destruct (Hall x Hx); [assumption|lia]. }
  assert (Hs1 : s <> 1).
  { intro E. subst s.
    destruct Ha as [<-|Ha]; destruct Hb as [<-|Hb].
    - congruence.
    - destruct (Hall b Hb); lia.
    - destruct (Hall a Ha); lia.
    - destruct (Hall a Ha); lia. }
  rewrite (Hs a Ha Ha1 Hs1), (Hs b Hb Hb1 Hs1) in Hab. congruence.
Qed.

Lemma misaligned_lengths_raise_witness :
  aggregate [[Num (1 # 5); Num (9 # 10); Num (1 # 2)];
             [Num (3 # 5); Num (4 # 5); Num (1 # 2)];
             [Num (3 # 5); Num (4 # 5)]] 3
            (Some [Num 0%Q; Num 1%Q; Num 1%Q]) = Raise RuntimeError.
Proof.
  apply (@misaligned_lengths_raise _ 3 _
           [Num (1 # 5); Num (9 # 10); Num (1 # 2)] [Num (3 # 5); Num (4 # 5)]).
  - simpl. auto.
  - simpl. auto.
  - simpl. lia.
  - simpl. lia.
  - simpl. lia.
Defined.

(** ** [round] stays between the integers around its argument *)

Lemma round_floor_or_next :
  forall x : Q,
    Py.round x = Qfloor x \/
    (Py.round x = (Qfloor x + 1)%Z /\ (inject_Z (Qfloor x) < x)%Q).
Proof.
  intro x. unfold Py.round.
  destruct ((x - inject_Z (Qfloor x)) ?= (1 # 2))%Q eqn:E.
  - destruct (Z.even (Qfloor x)); [left; reflexivity|].
    right. split; [reflexivity|].
    apply Qeq_alt in E.
    apply Qlt_minus_iff. rewrite E. reflexivity.
  - left. reflexivity.
  - right. split; [reflexivity|].
    apply Qgt_alt in E.
    apply Qlt_minus_iff. eapply Qlt_trans; [|exact E]. reflexivity.
Qed.

Lemma round_bounds :
  forall (x : Q) (n : Z),
    (0 <= x)%Q -> (x <= inject_Z n)%Q ->
    (0 <= Py.round x <= n)%Z.
Proof.
  intros x n H0 Hn.
  assert (Hf0 : (0 <= Qfloor x)%Z).
  { change 0%Z with (Qfloor 0). apply Qfloor_resp_le. exact H0. }
  assert (Hfn : (Qfloor x <= n)%Z).
  { rewrite <- (Qfloor_Z n). apply Qfloor_resp_le. exact Hn. }
  destruct (round_floor_or_next x) as [->|[-> Hlt]]; [lia|].
  split; [lia|].
  assert (Hlt' : (inject_Z (Qfloor x) < inject_Z n)%Q).
  { eapply Qlt_le_trans; [exact Hlt | exact Hn]. }
  rewrite <- Zlt_Qlt in Hlt'. lia.
Qed.

(** The size of a bag for a fraction in [0,1]. *)
Lemma bag_size_bounds :
  forall (percent : Q) (n : nat),
    (0 <= percent)%Q -> (percent <= 1)%Q ->
    (0 <= Py.round (percent * inject_Z (Z.of_nat n)) <= Z.of_nat n)%Z.
Proof.
  intros percent n H0 H1.
  assert (Hn : (0 <= inject_Z (Z.of_nat n))%Q).
  { change 0%Q with (inject_Z 0). rewrite <- Zle_Qle. lia. }
  apply round_bounds.
  - apply Qmult_le_0_compat; assumption.
  - rewrite <- (Qmult_1_l (inject_Z (Z.of_nat n))) at 2.
    apply Qmult_le_compat_r; assumption.
Qed.

(** ** [random.sample]: selection without replacement *)

Lemma list_set_length :
  forall (pool : list nat) (j x : nat), length (list_set j x pool) = length pool.
Proof.
  induction pool as [|y pool IH]; intros [|j] x; simpl; auto.
Qed.

Lemma firstn_snoc_nth :
  forall (l : list nat) (m : nat),
    m < length l -> firstn (S m) l = firstn m l ++ [nth m l 0].
Proof.
  induction l as [|y l IH]; intros m Hm; simpl in Hm; [lia|].
  destruct m as [|m]; [reflexivity|].
  cbn [firstn nth app]. f_equal.
  apply IH. lia.
Qed.

(** One step of the selection: the live part of the pool is the selected
    entry together with the live part after the step. *)
Lemma selection_step :
  forall (j : nat) (pool : list nat) (m : nat),
    m < length pool -> j <= m ->
    Permutation (firstn (S m) pool)
                (nth j pool 0 :: firstn m (list_set j (nth m pool 0) pool)).
Proof.
  induction j as [|j IH]; intros pool m Hm Hj.
  - destruct pool as [|y pool]; simpl in Hm; [lia|].
    cbn [list_set nth firstn]. constructor.
    destruct m as [|m]; [constructor|].
    cbn [nth]. rewrite firstn_snoc_nth by lia.
    cbn [firstn]. apply Permutation_sym, Permutation_cons_append.
  - destruct pool as [|y pool]; simpl in Hm; [lia|].
    destruct m as [|m]; [lia|].
    cbn [list_set nth firstn].
    eapply perm_trans; [|apply perm_swap].
    constructor. apply IH; lia.
Qed.

Lemma sample_pool_spec :
  forall (k n : nat) (pool : list nat) (i : nat) (g : Generator),
    length pool = n -> i + k <= n ->
    exists rest,
      Permutation (firstn (n - i) pool) (fst (sample_pool n pool i k g) ++ rest) /\
      length (fst (sample_pool n pool i k g)) = k /\
      snd (sample_pool n pool i k g) = {| raw := raw g; cursor := cursor g + k |}.
Proof.
  induction k as [|k IH]; intros n pool i g Hlen Hik.
  - exists (firstn (n - i) pool). simpl. split; [reflexivity|]. split; [reflexivity|].
    destruct g as [r c]. simpl. f_equal. lia.
  - cbn [sample_pool]. unfold randbelow.
    set (j := raw g (cursor g) mod (n - i)).
    set (g1 := {| raw := raw g; cursor := S (cursor g) |}).
    set (pool1 := list_set j (nth (n - i - 1) pool 0) pool).
    assert (Hj : j < n - i) by (apply Nat.mod_upper_bound; lia).
    destruct (IH n pool1 (S i) g1) as (rest & Hperm & Hl & Hg).
    { unfold pool1. rewrite list_set_length. exact Hlen. }
    { lia. }
    destruct (sample_pool n pool1 (S i) k g1) as [r g2].
    cbn [fst snd] in *. exists rest.
    split; [|split].
    + replace (n - i) with (S (n - i - 1)) by lia.
      eapply perm_trans; [apply (@selection_step j); lia|].
      cbn [app]. constructor.
      replace (n - S i) with (n - i - 1) in Hperm by lia. exact Hperm.
    + simpl. rewrite Hl. reflexivity.
    + rewrite Hg. unfold g1. simpl. f_equal. lia.
Qed.

(** [random.sample(range(n), k)] for [0 <= k <= n]: [k] pairwise distinct
    indices below [n], for [k] raw outputs of the generator. *)
Lemma sample_range :
  forall (n : nat) (k : Z) (g : Generator),
    (0 <= k <= Z.of_nat n)%Z ->
    exists idx,
      Random.sample (seq 0 n) k g
      = (Ok idx, {| raw := raw g; cursor := cursor g + Z.to_nat k |}) /\
      length idx = Z.to_nat k /\
      NoDup idx /\
      Forall (fun i => i < n) idx.
Proof.
  intros n k g Hk. unfold Random.sample. rewrite length_seq.
  assert (E : ((0 <=? k)%Z && (k <=? Z.of_nat n)%Z)%bool = true).
  { apply andb_true_intro. split; apply Z.leb_le; lia. }
  rewrite E.
  destruct (@sample_pool_spec (Z.to_nat k) n (seq 0 n) 0 g) as (rest & Hperm & Hl & Hg).
  { apply length_seq. }
  { lia. }
  destruct (sample_pool n (seq 0 n) 0 (Z.to_nat k) g) as [idx g'].
  cbn [fst snd] in *. subst g'. exists idx.
  split; [reflexivity|]. split; [exact Hl|].
  rewrite Nat.sub_0_r, firstn_all2 in Hperm by (rewrite length_seq; lia).
  split.
  - assert (Hnd : NoDup (idx ++ rest)).
    { eapply Permutation_NoDup; [exact Hperm | apply seq_NoDup]. }
    apply NoDup_app_remove_r in Hnd. exact Hnd.
  - apply Forall_forall. intros x Hx.
    assert (Hin : In x (seq 0 n)).
    { eapply Permutation_in; [apply Permutation_sym; exact Hperm|].
      apply in_or_app. left. exact Hx. }
    apply in_seq in Hin. lia.
Qed.

Lemma sample_invalid :
  forall (population : list nat) (k : Z) (g : Generator),
    ~ (0 <= k <= Z.of_nat (length population))%Z ->
    Random.sample population k g = (Raise ValueError, g).
Proof.
  intros population k g Hk. unfold Random.sample.
  destruct ((0 <=? k)%Z && (k <=? Z.of_nat (length population))%Z)%bool eqn:E;
    [|reflexivity].
  apply andb_prop in E. destruct E as [E1 E2].
  apply Z.leb_le in E1. apply Z.leb_le in E2. lia.
Qed.

(** ** The bootstrap sampler *)

(** The two outcomes of [bagging_loader], by the size of the bag. *)
Lemma bagging_loader_cases :
  forall (dataset : CovidDataset) (percent : Q) (shuffle : bool) (g : Generator),
    let size := Py.round (percent * inject_Z (Z.of_nat (len dataset))) in
    ((0 <= size <= Z.of_nat (len dataset))%Z /\
     exists idx,
       bagging_loader dataset percent shuffle g
       = (DataLoader_init dataset (Some (SubsetRandomSampler idx)) BATCH_SIZE true shuffle,
          {| raw := raw g; cursor := cursor g + Z.to_nat size |}) /\
       length idx = Z.to_nat size)
    \/
    (~ (0 <= size <= Z.of_nat (len dataset))%Z /\
     bagging_loader dataset percent shuffle g = (Raise ValueError, g)).
Proof.
  intros dataset percent shuffle g size.
  destruct (Z_le_dec 0 size) as [H0|H0];
    [destruct (Z_le_dec size (Z.of_nat (len dataset))) as [H1|H1]|].
  - left. split; [lia|].
    destruct (@sample_range (len dataset) size g) as (idx & Hs & Hl & _); [lia|].
    exists idx. unfold bagging_loader. fold size. rewrite Hs.
    split; [reflexivity | exact Hl].
  - right. split; [lia|]. unfold bagging_loader. fold size.
    rewrite sample_invalid by (rewrite length_seq; lia). reflexivity.
  - right. split; [lia|]. unfold bagging_loader. fold size.
    rewrite sample_invalid by (rewrite length_seq; lia). reflexivity.
Qed.

(** C7, counterexample. A fraction of 0, an empty dataset and a fraction
    above 1 are all accepted. *)
Lemma invalid_arguments_accepted :
  is_ok (fst (bagging_loader (example_dataset 100) 0 false example_generator)) = true /\
  is_ok (fst (bagging_loader (example_dataset 0) (6 # 10) false example_generator)) = true /\
  is_ok (fst (bagging_loader (example_dataset 100) (1004 # 1000) false example_generator)) = true.
Proof. vm_compute. auto. Qed.



(** ** Batching with [drop_last] *)

Lemma batch_sampler_drop_last :
  forall (bs : nat) (indices batch : list nat),
    0 < bs -> length batch < bs ->
    Forall (fun b => length b = bs) (batch_sampler_iter bs true batch indices) /\
    concat (batch_sampler_iter bs true batch indices)
    = firstn (bs * ((length batch + length indices) / bs)) (batch ++ indices).
Proof.
  intros bs indices. induction indices as [|idx rest IH]; intros batch Hbs Hb.
  - cbn [batch_sampler_iter]. rewrite andb_false_r. split; [constructor|].
    cbn [length concat]. rewrite Nat.add_0_r, Nat.div_small by exact Hb.
    rewrite Nat.mul_0_r. reflexivity.
  - cbn [batch_sampler_iter].
    assert (Hlen : length (batch ++ [idx]) = S (length batch)).
    { rewrite length_app. simpl. lia. }
    replace (batch ++ idx :: rest) with ((batch ++ [idx]) ++ rest)
      by (rewrite <- app_assoc; reflexivity).
    replace (length batch + length (idx :: rest))
      with (length (batch ++ [idx]) + length rest) by (rewrite Hlen; simpl; lia).
    destruct (Nat.eqb (length (batch ++ [idx])) bs) eqn:E.
    + apply Nat.eqb_eq in E.
      destruct (IH [] Hbs Hbs) as [Hall Hcat]. split.
      * constructor; assumption.
      * cbn [concat]. rewrite Hcat. cbn [length app Nat.add].
        rewrite E.
        replace (bs + length rest) with (1 * bs + length rest) by lia.
        rewrite Nat.div_add_l by lia.
        replace (bs * (1 + length rest / bs))
          with (length (batch ++ [idx]) + bs * (length rest / bs)) by lia.
        rewrite firstn_app_2. reflexivity.
    + apply Nat.eqb_neq in E.
      apply IH; [exact Hbs | lia].
Qed.

Lemma firstn_seq_le :
  forall k n s : nat, k <= n -> firstn k (seq s n) = seq s k.
Proof.
  intros k n s Hk. replace n with (k + (n - k)) by lia.
  rewrite seq_app.
  rewrite <- (length_seq k s) at 1.
  rewrite <- (Nat.add_0_r (length (seq s k))), firstn_app_2.
  cbn [firstn]. apply app_nil_r.
Qed.

(** The batches of a sequential pass with [drop_last]: whole batches only,
    covering the first [bs * (n / bs)] indices. *)
Lemma sequential_batches :
  forall bs n : nat,
    0 < bs ->
    Forall (fun b => length b = bs) (batch_sampler_iter bs true [] (seq 0 n)) /\
    concat (batch_sampler_iter bs true [] (seq 0 n)) = seq 0 (bs * (n / bs)).
Proof.
  intros bs n Hbs.
  destruct (@batch_sampler_drop_last bs (seq 0 n) [] Hbs Hbs) as [Hall Hcat].
  split; [exact Hall|]. rewrite Hcat. cbn [length app Nat.add].
  rewrite length_seq. apply firstn_seq_le.
  apply Nat.Div0.mul_div_le.
Qed.

(** ** One pass over the test loader *)

Lemma getitem_in_range :
  forall (dataset : CovidDataset) (i : nat),
    i < len dataset -> getitem dataset i = Ok (sample_at dataset i).
Proof.
  intros dataset i Hi. unfold getitem, sample_at.
  rewrite (nth_error_nth' _ {| parent_name := ""; name := "" |} Hi).
  reflexivity.
Qed.

Lemma mapM_ok :
  forall (A B : Type) (f : A -> result B) (g : A -> B) (l : list A),
    (forall a, In a l -> f a = Ok (g a)) -> mapM f l = Ok (map g l).
Proof.
  intros A B f g. induction l as [|a l IH]; intro H; [reflexivity|].
  cbn [mapM map]. rewrite (H a (or_introl Logic.eq_refl)). cbn [bind].
  rewrite IH by (intros b Hb; apply H; right; exact Hb). reflexivity.
Qed.

Lemma fetch_in_range :
  forall (dataset : CovidDataset) (batch : list nat),
    (forall i, In i batch -> i < len dataset) ->
    fetch dataset batch = Ok (collate dataset batch).
Proof.
  intros dataset batch H. unfold fetch.
  rewrite (@mapM_ok _ _ (getitem dataset) (sample_at dataset))
    by (intros i Hi; apply getitem_in_range, H, Hi).
  cbn [bind]. unfold collate. rewrite !map_map. reflexivity.
Qed.

Lemma test_batches_concat :
  forall testset : CovidDataset,
    concat (test_batches testset)
    = seq 0 (BATCH_SIZE * (len testset / BATCH_SIZE)).
Proof.
  intro testset. apply sequential_batches. unfold BATCH_SIZE. lia.
Qed.

Lemma test_loader_iter :
  forall (testset : CovidDataset) (tg : Generator),
    loader_iter (test_loader testset) tg
    = (Ok (map (collate testset) (test_batches testset)), tg).
Proof.
  intros testset tg. unfold loader_iter, test_loader.
  cbn [sampler sampler_iter dataset batch_size drop_last].
  fold (test_batches testset). f_equal.
  apply mapM_ok. intros b Hb. apply fetch_in_range. intros i Hi.
  assert (Hin : In i (concat (test_batches testset))).
  { apply in_concat. exists b. split; assumption. }
  rewrite test_batches_concat in Hin. apply in_seq in Hin.
  pose proof (Nat.Div0.mul_div_le (len testset) BATCH_SIZE). lia.
Qed.

(** ** The loops of [models_bagging] *)

Lemma dict_set_twice :
  forall (key : nat) (v w : Tensor) (d : dict),
    dict_set key v (dict_set key w d) = dict_set key v d.
Proof.
  intros key v w. induction d as [|[k u] d IH]; cbn [dict_set].
  - rewrite Nat.eqb_refl. reflexivity.
  - destruct (Nat.eqb k key) eqn:E; cbn [dict_set]; rewrite E; [reflexivity|].
    rewrite IH. reflexivity.
Qed.

Lemma dict_set_fresh :
  forall (key : nat) (v : Tensor) (d : dict),
    ~ In key (map fst d) -> dict_set key v d = d ++ [(key, v)].
Proof.
  intros key v. induction d as [|[k u] d IH]; intro H; [reflexivity|].
  cbn [dict_set]. cbn [map fst In] in H.
  destruct (Nat.eqb k key) eqn:E.
  - apply Nat.eqb_eq in E. tauto.
  - rewrite IH by tauto. reflexivity.
Qed.

Lemma batch_fold :
  forall (model : SqueezenetTransferLearning) (key : nat) (batches : list Batch)
         (pd : dict) (lab log : Tensor),
    fold_left
      (fun (st : dict * Tensor * Tensor) (b : Batch) =>
         let '(pred_dic, labels_tensor, logits_tensor) := st in
         let (input, labels) := b in
         let logits := map (probability model) input in
         let labels_tensor := Torch.cat labels_tensor labels in
         let logits_tensor := Torch.cat logits_tensor logits in
         (dict_set key logits_tensor pred_dic, labels_tensor, logits_tensor))
      batches (pd, lab, log)
    = (match batches with
       | [] => pd
       | _ => dict_set key (log ++ logits_of model batches) pd
       end,
       lab ++ labels_of batches,
       log ++ logits_of model batches).
Proof.
  intros model key. induction batches as [|[input labels] batches IH];
    intros pd lab log.
  - cbn. rewrite !app_nil_r. reflexivity.
  - cbn [fold_left]. rewrite IH. unfold Torch.cat, logits_of, labels_of.
    cbn [map concat fst snd]. rewrite !app_assoc.
    destruct batches; [|rewrite dict_set_twice]; cbn [map concat];
      rewrite ?app_nil_r; reflexivity.
Qed.

Lemma batch_loop_spec :
  forall (model : SqueezenetTransferLearning) (key : nat) (batches : list Batch)
         (pd : dict),
    batches <> [] ->
    batch_loop model key batches pd
    = (dict_set key (logits_of model batches) pd, labels_of batches).
Proof.
  intros model key batches pd Hne. unfold batch_loop. rewrite batch_fold.
  destruct batches; [congruence|]. reflexivity.
Qed.

Lemma model_loop_spec :
  forall (test_loader : DataLoader) (batches : list Batch),
    (forall tg, loader_iter test_loader tg = (Ok batches, tg)) ->
    batches <> [] ->
    forall (models : list SqueezenetTransferLearning) (key : nat) (d : dict)
           (lab : option Tensor) (tg : Generator),
      map fst d = seq 0 key ->
      model_loop models key test_loader {| pred_dic := d; labels_tensor := lab |} tg
      = (Ok {| pred_dic :=
                 d ++ combine (seq key (length models))
                              (map (fun m => logits_of m batches) models);
               labels_tensor :=
                 match models with
                 | [] => lab
                 | _ => Some (labels_of batches)
                 end |},
         tg).
Proof.
  intros test_loader batches Hiter Hne.
  induction models as [|model rest IH]; intros key d lab tg Hkeys.
  - cbn. rewrite app_nil_r. reflexivity.
  - cbn [model_loop]. rewrite Hiter. cbn [pred_dic].
    rewrite batch_loop_spec by exact Hne.
    rewrite dict_set_fresh
      by (rewrite Hkeys; intro Hin; apply in_seq in Hin; lia).
    rewrite IH by (rewrite map_app, Hkeys, seq_S; reflexivity).
    cbn [length seq map combine]. rewrite <- app_assoc. cbn [app].
    destruct rest; reflexivity.
Qed.

Lemma map_snd_combine :
  forall (A B : Type) (ks : list A) (vs : list B),
    length ks = length vs -> map snd (combine ks vs) = vs.
Proof.
  intros A B. induction ks as [|k ks IH]; intros [|v vs] H;
    simpl in *; try discriminate; [reflexivity|].
  f_equal. apply IH. lia.
Qed.

Lemma logits_of_collate :
  forall (model : SqueezenetTransferLearning) (dataset : CovidDataset)
         (out : list (list nat)),
    logits_of model (map (collate dataset) out)
    = map (fun i => probability model (fst (sample_at dataset i))) (concat out).
Proof.
  intros model dataset. unfold logits_of.
  induction out as [|b out IH]; [reflexivity|].
  cbn [map concat collate fst]. rewrite IH, map_app, map_map. reflexivity.
Qed.

Lemma labels_of_collate :
  forall (dataset : CovidDataset) (out : list (list nat)),
    labels_of (map (collate dataset) out)
    = map (fun i => Num (inject_Z (snd (sample_at dataset i)))) (concat out).
Proof.
  intro dataset. unfold labels_of.
  induction out as [|b out IH]; [reflexivity|].
  cbn [map concat collate snd]. rewrite IH, map_app. reflexivity.
Qed.

(** [models_bagging] over a loader whose every pass yields [batches]. *)
Lemma models_bagging_spec :
  forall (test_loader : DataLoader) (batches : list Batch),
    (forall tg, loader_iter test_loader tg = (Ok batches, tg)) ->
    batches <> [] ->
    forall (model_list : list nat)
           (load_from_checkpoint : nat -> SqueezenetTransferLearning)
           (tg : Generator),
      model_list <> [] ->
      models_bagging model_list load_from_checkpoint test_loader tg
      = (aggregate
           (map (fun n => logits_of (load_from_checkpoint n) batches) model_list)
           (length model_list)
           (Some (labels_of batches)),
         tg).
Proof.
  intros test_loader batches Hiter Hne model_list load tg Hml.
  unfold models_bagging.
  rewrite (@model_loop_spec test_loader batches Hiter Hne) by reflexivity.
  cbn [bind pred_dic labels_tensor app]. unfold dict_values.
  rewrite map_snd_combine by (rewrite length_seq, !length_map; reflexivity).
  rewrite map_map, length_map.
  destruct model_list; [congruence|]. reflexivity.
Qed.

(** ** More on the bootstrap sampler *)

(** What a successful call of [bagging_loader] returns. *)
Lemma bagging_loader_ok :
  forall (dataset : CovidDataset) (percent : Q) (g : Generator) (loader : DataLoader),
    fst (bagging_loader dataset percent false g) = Ok loader ->
    loader = {| dataset := dataset; sampler := SubsetRandomSampler (bag loader);
                batch_size := BATCH_SIZE; drop_last := true |} /\
    Z.of_nat (length (bag loader))
    = Py.round (percent * inject_Z (Z.of_nat (len dataset))) /\
    NoDup (bag loader) /\
    Forall (fun i => i < len dataset) (bag loader) /\
    exists rest,
      Permutation (seq 0 (len dataset)) (bag loader ++ rest).
Proof.
  intros dataset percent g loader H.
  unfold bagging_loader, Random.sample in H. rewrite length_seq in H.
  set (size := Py.round (percent * inject_Z (Z.of_nat (len dataset)))) in *.
  destruct ((0 <=? size)%Z && (size <=? Z.of_nat (len dataset))%Z)%bool eqn:E;
    [|discriminate].
  apply andb_prop in E. destruct E as [E1 E2].
  apply Z.leb_le in E1. apply Z.leb_le in E2.
  destruct (@sample_pool_spec (Z.to_nat size) (len dataset) (seq 0 (len dataset)) 0 g)
    as (rest & Hperm & Hl & _); [apply length_seq | lia |].
  destruct (sample_pool (len dataset) (seq 0 (len dataset)) 0 (Z.to_nat size) g)
    as [idx g'].
  cbn [fst snd bind DataLoader_init] in *. injection H as <-.
  cbn [bag sampler].
  rewrite Nat.sub_0_r, firstn_all2 in Hperm by (rewrite length_seq; lia).
  assert (Hnd : NoDup (idx ++ rest)).
  { eapply Permutation_NoDup; [exact Hperm | apply seq_NoDup]. }
  split; [reflexivity|]. split; [rewrite Hl; lia|].
  split; [apply NoDup_app_remove_r in Hnd; exact Hnd|]. split.
  - apply Forall_forall. intros x Hx.
    assert (Hin : In x (seq 0 (len dataset))).
    { eapply Permutation_in; [apply Permutation_sym; exact Hperm|].
      apply in_or_app. left. exact Hx. }
    apply in_seq in Hin. lia.
  - exists rest. exact Hperm.
Qed.

Lemma round_inject_Z : forall z : Z, Py.round (inject_Z z) = z.
Proof.
  intro z. unfold Py.round. rewrite Qfloor_Z.
  assert (E : ((inject_Z z - inject_Z z) ?= (1 # 2))%Q = Lt).
  { apply Qlt_alt. setoid_replace (inject_Z z - inject_Z z)%Q with 0%Q by ring.
    reflexivity. }
  rewrite E. reflexivity.
Qed.

(** X1. With [percent = 1] the bag is the whole dataset: every index of
    the dataset exactly once, in the order the generator decides. *)
Theorem bagging_loader_full_bag :
  forall (dataset : CovidDataset) (g : Generator),
    exists loader,
      fst (bagging_loader dataset 1 false g) = Ok loader /\
      Permutation (bag loader) (seq 0 (len dataset)).
Proof.
  intros dataset g.
  assert (Hsize : Py.round (1 * inject_Z (Z.of_nat (len dataset)))
                  = Z.of_nat (len dataset)).
  { rewrite (@round_compat _ (inject_Z (Z.of_nat (len dataset)))) by ring.
    apply round_inject_Z. }
  destruct (bagging_loader_cases dataset 1 false g)
    as [(_ & idx & Hb & _)|(Hb & _)]; [|rewrite Hsize in Hb; lia].
  assert (Hok : fst (bagging_loader dataset 1 false g)
                = Ok {| dataset := dataset; sampler := SubsetRandomSampler idx;
                        batch_size := BATCH_SIZE; drop_last := true |}).
  { rewrite Hb. reflexivity. }
  eexists. split; [exact Hok|].
  destruct (bagging_loader_ok _ _ _ Hok) as (_ & Hl & _ & _ & rest & Hperm).
  rewrite Hsize in Hl. apply Nat2Z.inj in Hl.
  assert (Hrest : rest = []).
  { apply Permutation_length in Hperm.
    rewrite length_seq, length_app, Hl in Hperm.
    apply length_zero_iff_nil. lia. }
  subst rest. rewrite app_nil_r in Hperm. apply Permutation_sym. exact Hperm.
Qed.

Lemma randperm_permutation :
  forall (n : nat) (g : Generator),
    Permutation (fst (randperm n g)) (seq 0 n).
Proof.
  intros n g. unfold randperm.
  destruct (@sample_pool_spec n n (seq 0 n) 0 g) as (rest & Hperm & Hl & _);
    [apply length_seq | lia |].
  rewrite Nat.sub_0_r, firstn_all2 in Hperm by (rewrite length_seq; lia).
  assert (Hrest : rest = []).
  { pose proof (Permutation_length Hperm) as E.
    rewrite length_seq, length_app, Hl in E.
    apply length_zero_iff_nil. lia. }
  subst rest. rewrite app_nil_r in Hperm. apply Permutation_sym. exact Hperm.
Qed.

Lemma map_nth_seq_all :
  forall (l : list nat), map (fun i => nth i l 0) (seq 0 (length l)) = l.
Proof.
  intro l. apply (nth_ext _ _ 0 0).
  - rewrite length_map, length_seq. reflexivity.
  - intros i Hi. rewrite length_map, length_seq in Hi.
    rewrite (nth_indep _ 0 (nth 0 l 0)) by (rewrite length_map, length_seq; exact Hi).
    rewrite (map_nth (fun j => nth j l 0)), seq_nth by exact Hi. reflexivity.
Qed.

Lemma NoDup_firstn_of :
  forall (k : nat) (l : list nat), NoDup l -> NoDup (firstn k l).
Proof.
  intros k l H. rewrite <- (firstn_skipn k l) in H.
  apply NoDup_app_remove_r in H. exact H.
Qed.

Lemma incl_firstn_of :
  forall (k : nat) (l : list nat), incl (firstn k l) l.
Proof.
  intros k l x Hx. rewrite <- (firstn_skipn k l). apply in_or_app. left. exact Hx.
Qed.

Lemma length_concat_uniform :
  forall (bs : nat) (out : list (list nat)),
    Forall (fun b => length b = bs) out ->
    length (concat out) = bs * length out.
Proof.
  intros bs out H. induction H as [|b out Hb _ IH]; cbn [concat length]; [lia|].
  rewrite length_app, IH, Hb. lia.
Qed.

(** [round] returns a nearest integer, the even one of the two at a tie. *)
Lemma round_nearest :
  forall x : Q,
    (Qabs (inject_Z (Py.round x) - x) <= 1 # 2)%Q /\
    ((x - inject_Z (Qfloor x) == 1 # 2)%Q -> Z.even (Py.round x) = true).
Proof.
  intro x.
  pose proof (Qfloor_le x) as Hlo. pose proof (Qlt_floor x) as Hhi.
  rewrite inject_Z_plus in Hhi. change (inject_Z 1) with 1%Q in Hhi.
  unfold Py.round.
  destruct ((x - inject_Z (Qfloor x)) ?= (1 # 2))%Q eqn:E.
  - apply Qeq_alt in E. destruct (Z.even (Qfloor x)) eqn:Ev.
    + split; [|intros _; exact Ev]. apply Qabs_Qle_condition. lra.
    + split.
      * apply Qabs_Qle_condition. rewrite inject_Z_plus.
        change (inject_Z 1) with 1%Q. lra.
      * intros _. rewrite Z.even_add, Ev. reflexivity.
  - apply Qlt_alt in E. split; [apply Qabs_Qle_condition; lra|].
    intro H. lra.
  - apply Qgt_alt in E. split.
    + apply Qabs_Qle_condition. rewrite inject_Z_plus.
      change (inject_Z 1) with 1%Q. lra.
    + intro H. lra.
Qed.

(** ** The whole run *)

Lemma test_batches_nonempty :
  forall testset : CovidDataset,
    BATCH_SIZE <= len testset -> test_batches testset <> [].
Proof.
  intros testset HM E.
  pose proof (test_batches_concat testset) as Hc. rewrite E in Hc.
  unfold BATCH_SIZE in *.
  pose proof (Nat.div_str_pos (len testset) 8 ltac:(lia)) as Hq.
  destruct (len testset / 8) as [|q]; [lia|]. discriminate.
Qed.

Lemma test_batches_empty :
  forall testset : CovidDataset,
    len testset < BATCH_SIZE -> test_batches testset = [].
Proof.
  intros testset HM.
  destruct (@sequential_batches BATCH_SIZE (len testset)) as [Hall Hc];
    [unfold BATCH_SIZE; lia|].
  fold (test_batches testset) in Hall, Hc.
  rewrite Nat.div_small, Nat.mul_0_r in Hc by exact HM.
  destruct (test_batches testset) as [|b out]; [reflexivity|].
  inversion Hall as [|? ? Hb _]; subst.
  destruct b; [discriminate Hb | discriminate Hc].
Qed.

(** With at least one member and one whole batch, the run is the
    aggregation of the members' probabilities over the evaluated samples. *)
Lemma main_value :
  forall (model_list : list nat)
         (load_from_checkpoint : nat -> SqueezenetTransferLearning)
         (testset : CovidDataset) (tg : Generator),
    model_list <> [] ->
    BATCH_SIZE <= len testset ->
    main model_list load_from_checkpoint testset tg
    = (aggregate (map (member_logits load_from_checkpoint testset) model_list)
                 (length model_list)
                 (Some (test_labels testset)),
       tg).
Proof.
  intros model_list load testset tg Hml HM.
  unfold main. cbn [DataLoader_init]. fold (test_loader testset).
  assert (Hne : map (collate testset) (test_batches testset) <> []).
  { intro E. apply map_eq_nil in E. revert E. apply test_batches_nonempty, HM. }
  rewrite (@models_bagging_spec (test_loader testset) _
             (test_loader_iter testset) Hne) by exact Hml.
  f_equal. f_equal.
  - apply map_ext. intro n.
    rewrite logits_of_collate, test_batches_concat. reflexivity.
  - rewrite labels_of_collate, test_batches_concat. reflexivity.
Qed.

Lemma model_loop_no_batch :
  forall (test_loader : DataLoader),
    (forall tg, loader_iter test_loader tg = (Ok [], tg)) ->
    forall (models : list SqueezenetTransferLearning) (key : nat)
           (lab : option Tensor) (tg : Generator),
      model_loop models key test_loader {| pred_dic := []; labels_tensor := lab |} tg
      = (Ok {| pred_dic := [];
               labels_tensor := match models with [] => lab | _ => Some [] end |},
         tg).
Proof.
  intros test_loader Hiter.
  induction models as [|model rest IH]; intros key lab tg; [reflexivity|].
  cbn [model_loop]. rewrite Hiter. cbn [pred_dic batch_loop fold_left].
  rewrite IH. destruct rest; reflexivity.
Qed.

(** ** Labels and accuracy of a successful run *)

Lemma main_small :
  forall (model_list : list nat)
         (load_from_checkpoint : nat -> SqueezenetTransferLearning)
         (testset : CovidDataset) (tg : Generator),
    model_list <> [] -> len testset < BATCH_SIZE ->
    main model_list load_from_checkpoint testset tg = (Raise TypeError, tg).
Proof.
  intros model_list load testset tg Hml HM.
  unfold main. cbn [DataLoader_init]. fold (test_loader testset).
  unfold models_bagging.
  rewrite model_loop_no_batch
    by (intro tg'; rewrite test_loader_iter, test_batches_empty by exact HM;
        reflexivity).
  destruct model_list as [|n ns]; [congruence|]. reflexivity.
Qed.

(** A run that returns had a member and a whole batch to evaluate. *)
Lemma main_ok_inv :
  forall (model_list : list nat)
         (load_from_checkpoint : nat -> SqueezenetTransferLearning)
         (testset : CovidDataset) (tg : Generator) (r : Aggregate),
    fst (main model_list load_from_checkpoint testset tg) = Ok r ->
    model_list <> [] /\ BATCH_SIZE <= len testset.
Proof.
  intros model_list load testset tg r H.
  destruct model_list as [|n ns]; [discriminate H|].
  split; [discriminate|].
  destruct (Nat.lt_ge_cases (len testset) BATCH_SIZE) as [HM|HM]; [|exact HM].
  rewrite main_small in H by (try discriminate; exact HM). discriminate H.
Qed.

Lemma main_labels :
  forall (model_list : list nat)
         (load_from_checkpoint : nat -> SqueezenetTransferLearning)
         (testset : CovidDataset) (tg : Generator) (r : Aggregate),
    fst (main model_list load_from_checkpoint testset tg) = Ok r ->
    length (pred_list r) = evaluated testset /\
    (forall i, i < evaluated testset ->
       nth i (pred_list r) NaN
       = sround (spec_mean
           (map (fun n => probability (load_from_checkpoint n)
                                      (fst (sample_at testset i)))
                model_list))) /\
    test_acc r
    = Torch.mean (Torch.float
        (map (fun p => seqb (fst p) (snd p))
             (combine (pred_list r) (test_labels testset)))).
Proof.
  intros model_list load testset tg r H.
  destruct (main_ok_inv _ _ _ _ H) as [Hml HM].
  rewrite main_value in H by assumption. cbn [fst] in H.
  set (value := map (member_logits load testset) model_list) in *.
  assert (Hall : Forall (fun p => length p = evaluated testset) value).
  { apply Forall_forall. intros p Hp. apply in_map_iff in Hp.
    destruct Hp as (n & <- & _). unfold member_logits.
    rewrite length_map, length_seq. reflexivity. }
  assert (Hne : value <> []).
  { unfold value. destruct model_list; [congruence | discriminate]. }
  destruct (@consensus_same_length value (length model_list) _ Hne Hall)
    as (c & Hc & Hlen & Hnth).
  rewrite (@aggregate_of_consensus _ _ _ (test_labels testset) Hc) in H
    by (unfold test_labels; rewrite length_map, length_seq; congruence).
  injection H as <-. cbn [pred_list test_acc].
  split; [rewrite length_map; exact Hlen|]. split; [|reflexivity].
  intros i Hi. nth_sround. apply sround_compat.
  eapply Scalar_eq_trans; [apply (Hnth i Hi)|].
  unfold spec_mean. rewrite length_map.
  assert (Hcol : column i value
            = map (fun n => probability (load n) (fst (sample_at testset i)))
                  model_list).
  { unfold value, column, member_logits. rewrite map_map. apply map_ext. intro n.
    rewrite (nth_indep _ _ (probability (load n) (fst (sample_at testset 0))))
      by (rewrite length_map, length_seq; exact Hi).
    rewrite (map_nth (fun j => probability (load n) (fst (sample_at testset j)))).
    rewrite seq_nth by exact Hi. reflexivity. }
  rewrite Hcol. apply Scalar_eq_refl.
Qed.

(** Sums and means of probabilities. *)
Lemma sum_num_bounds :
  forall (lo hi : Q) (xs : list Scalar),
    Forall (fun x => exists q, x = Num q /\ (lo <= q <= hi)%Q) xs ->
    exists s,
      fold_right sadd (Num 0%Q) xs = Num s /\
      (lo * inject_Z (Z.of_nat (length xs)) <= s
       <= hi * inject_Z (Z.of_nat (length xs)))%Q.
Proof.
  intros lo hi xs H. induction H as [|x xs (q & -> & Hq) _ (s & Hs & Hb)].
  - exists 0%Q. split; [reflexivity|].
    cbn [length]. change (inject_Z (Z.of_nat 0)) with 0%Q. lra.
  - exists (q + s)%Q. cbn [fold_right]. rewrite Hs. split; [reflexivity|].
    cbn [length]. rewrite Nat2Z.inj_succ. unfold Z.succ.
    rewrite inject_Z_plus. change (inject_Z 1) with 1%Q. lra.
Qed.

Lemma sum_num_above :
  forall (lo : Q) (xs : list Scalar),
    xs <> [] ->
    Forall (fun x => exists q, x = Num q /\ (lo < q)%Q) xs ->
    exists s,
      fold_right sadd (Num 0%Q) xs = Num s /\
      (lo * inject_Z (Z.of_nat (length xs)) < s)%Q.
Proof.
  intros lo xs Hne H. induction H as [|x xs (q & -> & Hq) Hall IH]; [congruence|].
  cbn [fold_right length]. rewrite Nat2Z.inj_succ. unfold Z.succ.
  rewrite inject_Z_plus. change (inject_Z 1) with 1%Q.
  destruct xs as [|y ys].
  - exists (q + 0)%Q. split; [reflexivity|].
    cbn [length]. change (inject_Z (Z.of_nat 0)) with 0%Q. lra.
  - destruct IH as (s & Hs & Hb); [discriminate|].
    exists (q + s)%Q. rewrite Hs. split; [reflexivity|]. lra.
Qed.

Lemma sum_num_below :
  forall (hi : Q) (xs : list Scalar),
    xs <> [] ->
    Forall (fun x => exists q, x = Num q /\ (q < hi)%Q) xs ->
    exists s,
      fold_right sadd (Num 0%Q) xs = Num s /\
      (s < hi * inject_Z (Z.of_nat (length xs)))%Q.
Proof.
  intros hi xs Hne H. induction H as [|x xs (q & -> & Hq) Hall IH]; [congruence|].
  cbn [fold_right length]. rewrite Nat2Z.inj_succ. unfold Z.succ.
  rewrite inject_Z_plus. change (inject_Z 1) with 1%Q.
  destruct xs as [|y ys].
  - exists (q + 0)%Q. split; [reflexivity|].
    cbn [length]. change (inject_Z (Z.of_nat 0)) with 0%Q. lra.
  - destruct IH as (s & Hs & Hb); [discriminate|].
    exists (q + s)%Q. rewrite Hs. split; [reflexivity|]. lra.
Qed.

Lemma length_pos_Q :
  forall (A : Type) (xs : list A),
    xs <> [] -> (0 < inject_Z (Z.of_nat (length xs)))%Q.
Proof.
  intros A xs Hne. destruct xs; [congruence|].
  change 0%Q with (inject_Z 0). rewrite <- Zlt_Qlt. cbn [length]. lia.
Qed.

Lemma spec_mean_num :
  forall (xs : list Scalar) (s : Q),
    xs <> [] ->
    fold_right sadd (Num 0%Q) xs = Num s ->
    spec_mean xs = Num (s / inject_Z (Z.of_nat (length xs))).
Proof.
  intros xs s Hne Hs. unfold spec_mean. rewrite Hs.
  destruct xs; [congruence|]. reflexivity.
Qed.

Lemma round_unit_high :
  forall m : Q, (1 # 2 < m)%Q -> (m <= 1)%Q -> Py.round m = 1%Z.
Proof.
  intros m H1 H2.
  destruct (round_nearest m) as [Hn _]. apply Qabs_Qle_condition in Hn.
  assert (Hb : (0 <= Py.round m <= 1)%Z).
  { apply round_bounds; [lra | exact H2]. }
  assert (Hpos : (inject_Z 0 < inject_Z (Py.round m))%Q).
  { change (inject_Z 0) with 0%Q.
    remember (inject_Z (Py.round m)) as rq eqn:Erq in *. clear Erq Hb.
    destruct Hn as [Hn1 Hn2]. lra. }
  rewrite <- Zlt_Qlt in Hpos. lia.
Qed.

Lemma round_unit_low :
  forall m : Q, (0 <= m)%Q -> (m < 1 # 2)%Q -> Py.round m = 0%Z.
Proof.
  intros m H1 H2.
  destruct (round_nearest m) as [Hn _]. apply Qabs_Qle_condition in Hn.
  assert (Hb : (0 <= Py.round m <= 1)%Z).
  { apply round_bounds; [exact H1 | change (inject_Z 1) with 1%Q; lra]. }
  assert (Hlt : (inject_Z (Py.round m) < inject_Z 1)%Q).
  { change (inject_Z 1) with 1%Q.
    remember (inject_Z (Py.round m)) as rq eqn:Erq in *. clear Erq Hb.
    destruct Hn as [Hn1 Hn2]. lra. }
  rewrite <- Zlt_Qlt in Hlt. lia.
Qed.

(** X6. When every member reports probabilities between 0 and 1, every
    consensus label of a run is 0 or 1. *)
Theorem main_labels_binary :
  forall (model_list : list nat)
         (load_from_checkpoint : nat -> SqueezenetTransferLearning)
         (testset : CovidDataset) (tg : Generator) (r : Aggregate),
    (forall n x, In n model_list ->
       exists q, probability (load_from_checkpoint n) x = Num q /\ (0 <= q <= 1)%Q) ->
    fst (main model_list load_from_checkpoint testset tg) = Ok r ->
    Forall (fun l => l = Num 0%Q \/ l = Num 1%Q) (pred_list r).
Proof.
  intros model_list load testset tg r Hprob Hok.
  destruct (main_ok_inv _ _ _ _ Hok) as [Hml _].
  destruct (main_labels _ _ _ _ Hok) as (Hlen & Hnth & _).
  apply Forall_forall. intros l Hl.
  destruct (In_nth _ _ NaN Hl) as (i & Hi & <-).
  rewrite Hlen in Hi. rewrite (Hnth i Hi).
  set (col := map (fun n => probability (load n) (fst (sample_at testset i)))
                  model_list).
  assert (Hcol : Forall (fun x => exists q, x = Num q /\ (0 <= q <= 1)%Q) col).
  { apply Forall_forall. intros x Hx. apply in_map_iff in Hx.
    destruct Hx as (n & <- & Hn). apply Hprob, Hn. }
  assert (Hne : col <> []).
  { unfold col. destruct model_list; [congruence | discriminate]. }
  destruct (sum_num_bounds Hcol) as (s & Hs & Hb).
  rewrite (spec_mean_num Hne Hs). cbn [sround].
  pose proof (length_pos_Q Hne) as Hpos.
  assert (Hr : (0 <= Py.round (s / inject_Z (Z.of_nat (length col))) <= 1)%Z).
  { apply round_bounds.
    - apply Qle_shift_div_l; [exact Hpos | lra].
    - apply Qle_shift_div_r; [exact Hpos|]. change (inject_Z 1) with 1%Q. lra. }
  assert (Hcases : Py.round (s / inject_Z (Z.of_nat (length col))) = 0%Z \/
                   Py.round (s / inject_Z (Z.of_nat (length col))) = 1%Z) by lia.
  destruct Hcases as [-> | ->]; [left | right]; reflexivity.
Qed.

Lemma main_labels_binary_witness :
  Forall (fun l => l = Num 0%Q \/ l = Num 1%Q) (pred_list example_result).
Proof.
  apply (@main_labels_binary [3; 4; 5] example_member (example_dataset 20)
           example_generator example_result).
  - intros n x Hn. unfold example_member. cbn [probability].
    destruct (String.eqb (parent_name x) "CT_COVID").
    + exists (6 # 10). split; [reflexivity|]. split; discriminate.
    + exists (1 # Pos.of_nat n). split; [reflexivity|].
      cbn [In] in Hn. destruct Hn as [<-|[<-|[<-|[]]]]; split; discriminate.
  - vm_compute. reflexivity.
Defined.

(** X7. Unanimous members are not overruled: when every member's
    probability for a sample lies in (1/2, 1], so that each member alone
    predicts 1, the consensus label of the sample is 1; when every one lies
    in [0, 1/2), it is 0. *)
Theorem main_unanimous :
  forall (model_list : list nat)
         (load_from_checkpoint : nat -> SqueezenetTransferLearning)
         (testset : CovidDataset) (tg : Generator) (r : Aggregate) (i : nat)
         (b : bool),
    fst (main model_list load_from_checkpoint testset tg) = Ok r ->
    i < evaluated testset ->
    (forall n, In n model_list ->
       exists q,
         probability (load_from_checkpoint n) (fst (sample_at testset i)) = Num q /\
         if b then (1 # 2 < q)%Q /\ (q <= 1)%Q else (0 <= q)%Q /\ (q < 1 # 2)%Q) ->
    nth i (pred_list r) NaN = of_bool b /\
    forall n, In n model_list ->
      test_step_pred [probability (load_from_checkpoint n) (fst (sample_at testset i))]
      = [of_bool b].
Proof.
  intros model_list load testset tg r i b Hok Hi Hprob.
  destruct (main_ok_inv _ _ _ _ Hok) as [Hml _].
  destruct (main_labels _ _ _ _ Hok) as (_ & Hnth & _).
  split.
  - rewrite (Hnth i Hi).
    set (col := map (fun n => probability (load n) (fst (sample_at testset i)))
                    model_list).
    assert (Hne : col <> []).
    { unfold col. destruct model_list; [congruence | discriminate]. }
    pose proof (length_pos_Q Hne) as Hpos.
    assert (Hin : Forall (fun x => exists q, x = Num q /\ (0 <= q <= 1)%Q) col).
    { apply Forall_forall. intros x Hx. apply in_map_iff in Hx.
      destruct Hx as (n & <- & Hn). destruct (Hprob n Hn) as (q & -> & Hq).
      exists q. split; [reflexivity|]. destruct b; lra. }
    destruct (sum_num_bounds Hin) as (s & Hs & Hb).
    rewrite (spec_mean_num Hne Hs). cbn [sround].
    destruct b.
    + assert (Hlo : Forall (fun x => exists q, x = Num q /\ (1 # 2 < q)%Q) col).
      { apply Forall_forall. intros x Hx. apply in_map_iff in Hx.
        destruct Hx as (n & <- & Hn). destruct (Hprob n Hn) as (q & -> & H1 & _).
        exists q. auto. }
      destruct (sum_num_above Hne Hlo) as (s' & Hs' & Hb').
      rewrite Hs in Hs'. injection Hs' as <-.
      rewrite round_unit_high; [reflexivity| |].
      * apply Qlt_shift_div_l; [exact Hpos | exact Hb'].
      * apply Qle_shift_div_r; [exact Hpos | lra].
    + assert (Hhi : Forall (fun x => exists q, x = Num q /\ (q < 1 # 2)%Q) col).
      { apply Forall_forall. intros x Hx. apply in_map_iff in Hx.
        destruct Hx as (n & <- & Hn). destruct (Hprob n Hn) as (q & -> & _ & H2).
        exists q. auto. }
      destruct (sum_num_below Hne Hhi) as (s' & Hs' & Hb').
      rewrite Hs in Hs'. injection Hs' as <-.
      rewrite round_unit_low; [reflexivity| |].
      * apply Qle_shift_div_l; [exact Hpos | lra].
      * apply Qlt_shift_div_r; [exact Hpos | exact Hb'].
  - intros n Hn. destruct (Hprob n Hn) as (q & -> & Hq).
    unfold test_step_pred. cbn [map sround].
    destruct b; destruct Hq as [H1 H2].
    + rewrite round_unit_high by assumption. reflexivity.
    + rewrite round_unit_low by assumption. reflexivity.
Qed.

Lemma main_unanimous_witness :
  nth 2 (pred_list example_result) NaN = of_bool true /\
  forall n, In n [3; 4; 5] ->
    test_step_pred [probability (example_member n) (fst (sample_at (example_dataset 20) 2))]
    = [of_bool true].
Proof.
  apply (@main_unanimous [3; 4; 5] example_member (example_dataset 20)
           example_generator example_result 2 true).
  - vm_compute. reflexivity.
  - vm_compute. lia.
  - intros n _. exists (6 # 10). split; [reflexivity|]. split; [reflexivity|discriminate].
Defined.



(** ** A single member *)


(** ** The construction of the dataset *)

Lemma split_no_slash :
  forall s : string, no_slash s = true -> Pathlib.split s = [s].
Proof.
  induction s as [|c s IH]; intro H; [reflexivity|].
  cbn [no_slash] in H. apply andb_prop in H. destruct H as [Hc Hs].
  cbn [Pathlib.split]. apply negb_true_iff in Hc. rewrite Hc, (IH Hs). reflexivity.
Qed.

Lemma joinpath_plain :
  forall (path : Pathlib.PurePath) (s : string),
    plain_name s = true ->
    Pathlib.joinpath path s
    = {| Pathlib.root := Pathlib.root path;
         Pathlib.parts := Pathlib.parts path ++ [s] |}.
Proof.
  intros path s H. unfold plain_name in H.
  apply andb_prop in H. destruct H as [H Hs].
  apply andb_prop in H. destruct H as [He Hd].
  unfold Pathlib.joinpath.
  assert (Hroot : Pathlib.splitroot s = (""%string, s)).
  { destruct s as [|c s']; [reflexivity|].
    cbn [no_slash] in Hs. apply andb_prop in Hs. destruct Hs as [Hc _].
    apply negb_true_iff in Hc. unfold Pathlib.splitroot. rewrite Hc. reflexivity. }
  rewrite Hroot. cbn [String.eqb].
  unfold Pathlib.components. rewrite (split_no_slash _ Hs).
  cbn [filter]. rewrite He, Hd. reflexivity.
Qed.

Lemma path_of_child :
  forall (path : Pathlib.PurePath) (dir s : string),
    path_of {| Pathlib.root := Pathlib.root path;
               Pathlib.parts := (Pathlib.parts path ++ [dir]) ++ [s] |}
    = {| parent_name := dir; name := s |}.
Proof.
  intros path dir s. unfold path_of, Pathlib.parent, Pathlib.name.
  cbn [Pathlib.parts Pathlib.root].
  destruct ((Pathlib.parts path ++ [dir]) ++ [s]) eqn:E.
  - apply app_eq_nil in E. destruct E as [_ E]. discriminate.
  - rewrite <- E. cbn [Pathlib.parts].
    rewrite removelast_last, !last_last. reflexivity.
Qed.

(** The images of a dataset built from plain file names. *)
Lemma CovidDataset_init_images :
  forall (resolved : Pathlib.PurePath) (covid_names noncovid_names : list string),
    forallb plain_name covid_names = true ->
    forallb plain_name noncovid_names = true ->
    images (CovidDataset_init resolved covid_names noncovid_names)
    = map (fun s => {| parent_name := "CT_COVID"; name := s |}) covid_names
      ++ map (fun s => {| parent_name := "CT_NonCOVID"; name := s |}) noncovid_names.
Proof.
  intros resolved covid noncovid Hc Hn.
  unfold CovidDataset_init. cbn [images].
  rewrite !(@joinpath_plain resolved) by reflexivity.
  rewrite map_app, !map_map. f_equal; apply map_ext_in; intros s Hs.
  - rewrite forallb_forall in Hc. rewrite joinpath_plain by (apply Hc, Hs).
    cbn [Pathlib.root Pathlib.parts]. apply path_of_child.
  - rewrite forallb_forall in Hn. rewrite joinpath_plain by (apply Hn, Hs).
    cbn [Pathlib.root Pathlib.parts]. apply path_of_child.
Qed.

(** The samples of a dataset built from plain file names, as far as the
    index and the label go. *)
Lemma getitem_init :
  forall (resolved : Pathlib.PurePath) (covid_names noncovid_names : list string)
         (i : nat),
    forallb plain_name covid_names = true ->
    forallb plain_name noncovid_names = true ->
    len (CovidDataset_init resolved covid_names noncovid_names)
    = length covid_names + length noncovid_names /\
    getitem (CovidDataset_init resolved covid_names noncovid_names) i
    = if i <? length covid_names
      then Ok ({| parent_name := "CT_COVID"; name := nth i covid_names ""%string |}, 1%Z)
      else if i <? length covid_names + length noncovid_names
           then Ok ({| parent_name := "CT_NonCOVID";
                       name := nth (i - length covid_names) noncovid_names ""%string |},
                    0%Z)
           else Raise IndexError.
Proof.
  intros resolved covid noncovid i Hc Hn.
  unfold len, getitem. rewrite (CovidDataset_init_images resolved _ _ Hc Hn).
  split; [rewrite length_app, !length_map; reflexivity|].
  destruct (i <? length covid) eqn:E1.
  - apply Nat.ltb_lt in E1.
    rewrite nth_error_app1 by (rewrite length_map; exact E1).
    rewrite (nth_error_nth' _ {| parent_name := "CT_COVID"; name := "" |})
      by (rewrite length_map; exact E1).
    rewrite (map_nth (fun s => {| parent_name := "CT_COVID"; name := s |})).
    reflexivity.
  - apply Nat.ltb_ge in E1.
    rewrite nth_error_app2 by (rewrite length_map; exact E1).
    rewrite length_map.
    destruct (i <? length covid + length noncovid) eqn:E2.
    + apply Nat.ltb_lt in E2.
      rewrite (nth_error_nth' _ {| parent_name := "CT_NonCOVID"; name := "" |})
        by (rewrite length_map; lia).
      rewrite (map_nth (fun s => {| parent_name := "CT_NonCOVID"; name := s |})).
      reflexivity.
    + apply Nat.ltb_ge in E2.
      assert (En : nth_error
                     (map (fun s => {| parent_name := "CT_NonCOVID"; name := s |}) noncovid)
                     (i - length covid) = None).
      { apply nth_error_None. rewrite length_map. lia. }
      rewrite En. reflexivity.
Qed.

Lemma split_dir :
  forall d f : string,
    no_slash d = true ->
    Pathlib.split (String.append d (String "/"%char f)) = d :: Pathlib.split f.
Proof.
  induction d as [|c d IH]; intros f H; [reflexivity|].
  cbn [no_slash] in H. apply andb_prop in H. destruct H as [Hc Hd].
  apply negb_true_iff in Hc.
  cbn [String.append Pathlib.split]. rewrite Hc, (IH f Hd). reflexivity.
Qed.

Lemma joinpath_dir :
  forall (path : Pathlib.PurePath) (d f : string),
    plain_name d = true -> plain_name f = true ->
    Pathlib.joinpath path (String.append d (String "/"%char f))
    = {| Pathlib.root := Pathlib.root path;
         Pathlib.parts := (Pathlib.parts path ++ [d]) ++ [f] |}.
Proof.
  intros path d f Hd Hf. unfold plain_name in Hd, Hf.
  apply andb_prop in Hd. destruct Hd as [Hd Hds].
  apply andb_prop in Hd. destruct Hd as [Hde Hdd].
  apply andb_prop in Hf. destruct Hf as [Hf Hfs].
  apply andb_prop in Hf. destruct Hf as [Hfe Hfd].
  unfold Pathlib.joinpath.
  assert (Hroot : Pathlib.splitroot (String.append d (String "/"%char f))
                  = (""%string, String.append d (String "/"%char f))).
  { destruct d as [|c d']; [discriminate Hde|].
    cbn [no_slash] in Hds. apply andb_prop in Hds. destruct Hds as [Hc _].
    apply negb_true_iff in Hc. cbn [String.append].
    unfold Pathlib.splitroot. rewrite Hc. reflexivity. }
  rewrite Hroot. cbn [String.eqb].
  unfold Pathlib.components. rewrite (split_dir d f Hds), (split_no_slash _ Hfs).
  cbn [filter]. rewrite Hde, Hdd, Hfe, Hfd. cbn [andb].
  rewrite <- app_assoc. reflexivity.
Qed.

(** ** The aggregation step, whatever the rounding of the tensors *)

Lemma nth_map_in :
  forall (A B : Type) (f : A -> B) (l : list A) (i : nat) (d : B) (d' : A),
    i < length l -> nth i (map f l) d = f (nth i l d').
Proof.
  intros A B f l i d d' Hi.
  rewrite (nth_indep _ d (f d')) by (rewrite length_map; exact Hi).
  apply map_nth.
Qed.

Lemma aggregate_exact :
  forall (value : list Tensor) (n : nat) (labels : option Tensor),
    aggregate_f sadd (fun x k => sdiv_nat k x) value n labels
    = aggregate value n labels.
Proof. reflexivity. Qed.

Lemma sum_fold_tensor_f :
  forall (fadd : Scalar -> Scalar -> Scalar) (ps : list Tensor) (acc : Tensor)
         (M : nat),
    length acc = M ->
    Forall (fun p => length p = M) ps ->
    exists t,
      fold_left (fun a t => a' <- a ;; py_add_f fadd a' t) ps (Ok (PyTensor acc))
      = Ok (PyTensor t) /\
      length t = M /\
      forall i, i < M ->
        nth i t NaN = fold_left fadd (column i ps) (nth i acc NaN).
Proof.
  intro fadd. induction ps as [|p ps IH]; intros acc M Hacc Hps.
  - exists acc. simpl. auto.
  - inversion Hps as [|? ? Hp Hps']; subst.
    cbn [fold_left bind py_add_f].
    rewrite broadcast_same_length by congruence. cbn [bind].
    destruct (IH (map (fun q => fadd (fst q) (snd q)) (combine acc p)) (length acc))
      as (t & Ht & Hlen & Hnth).
    + apply zip_length. congruence.
    + exact Hps'.
    + exists t. split; [exact Ht|]. split; [exact Hlen|].
      intros i Hi. rewrite (Hnth i Hi).
      rewrite zip_nth by (try congruence; exact Hi). reflexivity.
Qed.

(** The consensus of vectors of one length, entry by entry. *)
Lemma consensus_f_same_length :
  forall (fadd : Scalar -> Scalar -> Scalar) (fdiv : Scalar -> nat -> Scalar)
         (value : list Tensor) (M : nat),
    value <> [] ->
    Forall (fun p => length p = M) value ->
    exists c,
      consensus_f fadd fdiv value (length value) = Ok (PyTensor c) /\
      length c = M /\
      forall i, i < M -> nth i c NaN = mean_f fadd fdiv (column i value).
Proof.
  intros fadd fdiv value M Hne Hall.
  destruct value as [|p ps]; [congruence|].
  inversion Hall as [|? ? Hp Hps]; subst.
  destruct (@sum_fold_tensor_f fadd ps (map (fun x => fadd x (Num 0%Q)) p) (length p))
    as (t & Ht & Hlen & Hnth); [apply length_map | exact Hps |].
  exists (map (fun x => fdiv x (length (p :: ps))) t).
  unfold consensus_f, py_sum_f. cbn [fold_left bind py_add_f].
  change (inject_Z 0) with 0%Q. rewrite Ht. cbn [bind py_truediv_f].
  split; [reflexivity|]. split; [rewrite length_map; exact Hlen|].
  intros i Hi.
  rewrite (@nth_map_in _ _ (fun x => fdiv x (length (p :: ps))) t i NaN NaN)
    by (rewrite Hlen; exact Hi).
  rewrite (Hnth i Hi).
  rewrite (@nth_map_in _ _ (fun x => fadd x (Num 0%Q)) p i NaN NaN) by exact Hi.
  unfold mean_f, column. cbn [map sum_f length]. rewrite length_map. reflexivity.
Qed.

Lemma aggregate_f_of_consensus :
  forall (fadd : Scalar -> Scalar -> Scalar) (fdiv : Scalar -> nat -> Scalar)
         (value : list Tensor) (n : nat) (c labels : Tensor),
    consensus_f fadd fdiv value n = Ok (PyTensor c) ->
    length labels = length c ->
    aggregate_f fadd fdiv value n (Some labels)
    = Ok {| pred_list := map sround c;
            test_acc :=
              Torch.mean (Torch.float
                (map (fun p => seqb (fst p) (snd p)) (combine (map sround c) labels))) |}.
Proof.
  intros fadd fdiv value n c labels Hc Hl. unfold aggregate_f. rewrite Hc.
  cbn [bind torch_round].
  unfold Torch.eq. rewrite broadcast_same_length by (rewrite length_map; lia).
  reflexivity.
Qed.





(** ** An entry that is not a number *)

Lemma fold_fadd_nan :
  forall (fadd : Scalar -> Scalar -> Scalar) (xs : list Scalar),
    (forall x, fadd NaN x = NaN) -> fold_left fadd xs NaN = NaN.
Proof.
  intros fadd xs H. induction xs as [|x xs IH]; [reflexivity|].
  cbn [fold_left]. rewrite H. exact IH.
Qed.

Lemma fold_fadd_nan_in :
  forall (fadd : Scalar -> Scalar -> Scalar) (xs : list Scalar) (a : Scalar),
    (forall x, fadd NaN x = NaN) -> (forall x, fadd x NaN = NaN) ->
    In NaN xs -> fold_left fadd xs a = NaN.
Proof.
  intros fadd xs a Hl Hr. revert a.
  induction xs as [|x xs IH]; intros a Hin; [contradiction|].
  cbn [fold_left]. destruct Hin as [->|Hin].
  - rewrite Hr. apply fold_fadd_nan, Hl.
  - apply IH, Hin.
Qed.

Lemma sum_f_nan :
  forall (fadd : Scalar -> Scalar -> Scalar) (xs : list Scalar),
    (forall x, fadd NaN x = NaN) -> (forall x, fadd x NaN = NaN) ->
    In NaN xs -> sum_f fadd xs = NaN.
Proof.
  intros fadd xs Hl Hr Hin. destruct xs as [|x xs]; [contradiction|].
  cbn [sum_f]. destruct Hin as [->|Hin].
  - rewrite Hl. apply fold_fadd_nan, Hl.
  - apply fold_fadd_nan_in; assumption.
Qed.

(** C8, counterexample. A single member whose probability is NaN, which is
    outside [0,1], is not rejected: the aggregation step returns a result,
    with NaN as the consensus label. *)
Lemma nan_probability_accepted :
  exists r,
    aggregate [[NaN]] 1 (Some [Num 1%Q]) = Ok r /\
    pred_list r = [NaN] /\
    out_of_range NaN.
Proof.
  eexists. split; [reflexivity|]. split; [reflexivity|]. exact I.
Qed.

(** C8, amended. The entries are not validated.  When some member's
    vector holds NaN for a sample (the one value outside [0,1] that a
    sigmoid can give), aligned vectors are aggregated all the same: the
    step returns a result, and the consensus label of that sample is NaN.
    This for every tensor arithmetic in which a sum or a quotient of NaN
    is NaN. *)
Theorem nan_probability_not_validated :
  forall (fadd : Scalar -> Scalar -> Scalar) (fdiv : Scalar -> nat -> Scalar)
         (value : list Tensor) (labels p : Tensor) (M i : nat),
    (forall x, fadd NaN x = NaN) ->
    (forall x, fadd x NaN = NaN) ->
    (forall n, fdiv NaN n = NaN) ->
    value <> [] ->
    Forall (fun q => length q = M) value ->
    length labels = M ->
    In p value -> i < M -> nth i p NaN = NaN ->
    exists r,
      aggregate_f fadd fdiv value (length value) (Some labels) = Ok r /\
      length (pred_list r) = M /\
      nth i (pred_list r) NaN = NaN.
Proof.
  intros fadd fdiv value labels p M i Hl Hr Hd Hne Hall Hlab Hp Hi Hnan.
  destruct (@consensus_f_same_length fadd fdiv value M Hne Hall)
    as (c & Hc & Hlen & Hnth).
  eexists. split; [apply aggregate_f_of_consensus; [exact Hc | congruence]|].
  cbn [pred_list]. split; [rewrite length_map; exact Hlen|].
  nth_sround. rewrite (Hnth i Hi). unfold mean_f.
  rewrite sum_f_nan; [rewrite Hd; reflexivity | exact Hl | exact Hr |].
  pose proof (in_map (fun q => nth i q NaN) value p Hp) as Hin.
  cbv beta in Hin. rewrite Hnan in Hin. exact Hin.
Qed.

Lemma nan_probability_not_validated_witness :
  exists r,
    aggregate_f sadd (fun x k => sdiv_nat k x)
      [[Num (1 # 5); NaN]; [Num (9 # 10); Num (1 # 5)]] 2
      (Some [Num 1%Q; Num 0%Q]) = Ok r /\
    length (pred_list r) = 2 /\
    nth 1 (pred_list r) NaN = NaN.
Proof.
  apply (@nan_probability_not_validated sadd (fun x k => sdiv_nat k x)
           [[Num (1 # 5); NaN]; [Num (9 # 10); Num (1 # 5)]]
           [Num 1%Q; Num 0%Q] [Num (1 # 5); NaN] 2 1).
  - reflexivity.
  - intros [| | |]; reflexivity.
  - reflexivity.
  - discriminate.
  - repeat constructor.
  - reflexivity.
  - simpl. auto.
  - lia.
  - reflexivity.
Defined.

(** ** The bootstrap sampler in the arithmetic of the floats *)

Lemma bagging_loader_exact :
  forall (dataset : CovidDataset) (percent : Q) (shuffle : bool) (g : Generator),
    bagging_loader_f Num dataset (Num percent) shuffle g
    = bagging_loader dataset percent shuffle g.
Proof. reflexivity. Qed.

Lemma loader_of_size_valid :
  forall (dataset : CovidDataset) (size : Z) (g : Generator),
    (0 <= size <= Z.of_nat (len dataset))%Z ->
    exists idx,
      fst (loader_of_size dataset size false g)
      = Ok {| dataset := dataset; sampler := SubsetRandomSampler idx;
              batch_size := BATCH_SIZE; drop_last := true |} /\
      fst (loader_of_size dataset size true g) = Raise ValueError /\
      Z.of_nat (length idx) = size /\
      NoDup idx /\
      Forall (fun i => i < len dataset) idx.
Proof.
  intros dataset size g Hs.
  destruct (sample_range (len dataset) g Hs) as (idx & Hsam & Hl & Hnd & Hin).
  exists idx. unfold loader_of_size. rewrite Hsam. cbn [fst bind DataLoader_init].
  split; [reflexivity|]. split; [reflexivity|].
  split; [rewrite Hl; lia|]. split; assumption.
Qed.

Lemma loader_of_size_invalid :
  forall (dataset : CovidDataset) (size : Z) (shuffle : bool) (g : Generator),
    ~ (0 <= size <= Z.of_nat (len dataset))%Z ->
    loader_of_size dataset size shuffle g = (Raise ValueError, g).
Proof.
  intros dataset size shuffle g Hs. unfold loader_of_size.
  rewrite sample_invalid by (rewrite length_seq; exact Hs). reflexivity.
Qed.

Lemma bagging_loader_f_num :
  forall (rnd : Q -> Scalar) (dataset : CovidDataset) (percent : Scalar)
         (shuffle : bool) (g : Generator) (q : Q),
    float_mul rnd percent (float_of_int rnd (Z.of_nat (len dataset))) = Num q ->
    bagging_loader_f rnd dataset percent shuffle g
    = loader_of_size dataset (Py.round q) shuffle g.
Proof.
  intros rnd dataset percent shuffle g q H. unfold bagging_loader_f. rewrite H.
  reflexivity.
Qed.

(** A successful call: the product was a number, and the bag has as many
    indices as its rounding, pairwise distinct and all of the dataset. *)
Lemma bagging_loader_f_ok :
  forall (rnd : Q -> Scalar) (dataset : CovidDataset) (percent : Scalar)
         (g : Generator) (loader : DataLoader),
    fst (bagging_loader_f rnd dataset percent false g) = Ok loader ->
    exists q,
      float_mul rnd percent (float_of_int rnd (Z.of_nat (len dataset))) = Num q /\
      loader = {| dataset := dataset; sampler := SubsetRandomSampler (bag loader);
                  batch_size := BATCH_SIZE; drop_last := true |} /\
      Z.of_nat (length (bag loader)) = Py.round q /\
      NoDup (bag loader) /\
      Forall (fun i => i < len dataset) (bag loader).
Proof.
  intros rnd dataset percent g loader H.
  destruct (float_mul rnd percent (float_of_int rnd (Z.of_nat (len dataset))))
    as [q| | |] eqn:E;
    try (unfold bagging_loader_f in H; rewrite E in H; discriminate H).
  exists q. split; [reflexivity|].
  rewrite (bagging_loader_f_num _ _ _ _ _ E) in H.
  destruct (Z_le_dec 0 (Py.round q)) as [H0|H0];
    [destruct (Z_le_dec (Py.round q) (Z.of_nat (len dataset))) as [H1|H1]|];
    try (rewrite loader_of_size_invalid in H by lia; discriminate H).
  destruct (@loader_of_size_valid dataset (Py.round q) g (conj H0 H1))
    as (idx & Hok & _ & Hl & Hnd & Hin).
  rewrite Hok in H. injection H as <-. cbn [bag sampler].
  split; [reflexivity|]. split; [exact Hl|]. split; assumption.
Qed.






(** C7, amended. [bagging_loader] validates neither the fraction nor the
    dataset.  What it does is decided by the float product
    [percent * len(dataset)]: when the product is NaN, [round] raises
    [ValueError]; when it is infinite, [round] raises [OverflowError];
    when its rounding is negative or exceeds the size of the dataset,
    [random.sample] raises [ValueError]; otherwise the constructor of the
    loader raises [ValueError] if [shuffle] is on, and a loader over a bag
    of that size is returned if it is off. *)
Theorem bagging_loader_f_failure :
  forall (rnd : Q -> Scalar) (dataset : CovidDataset) (percent : Scalar)
         (shuffle : bool) (g : Generator),
    match float_mul rnd percent (float_of_int rnd (Z.of_nat (len dataset))) with
    | NaN => bagging_loader_f rnd dataset percent shuffle g = (Raise ValueError, g)
    | PInf | NInf =>
        bagging_loader_f rnd dataset percent shuffle g = (Raise OverflowError, g)
    | Num product =>
        if ((0 <=? Py.round product)%Z
            && (Py.round product <=? Z.of_nat (len dataset))%Z)%bool
        then if shuffle
             then fst (bagging_loader_f rnd dataset percent shuffle g)
                  = Raise ValueError
             else exists loader,
                    fst (bagging_loader_f rnd dataset percent shuffle g) = Ok loader /\
                    Z.of_nat (length (bag loader)) = Py.round product
        else bagging_loader_f rnd dataset percent shuffle g = (Raise ValueError, g)
    end.
Proof.
  intros rnd dataset percent shuffle g.
  destruct (float_mul rnd percent (float_of_int rnd (Z.of_nat (len dataset))))
    as [q| | |] eqn:E;
    try (unfold bagging_loader_f; rewrite E; reflexivity).
  rewrite (bagging_loader_f_num _ _ _ _ _ E).
  destruct ((0 <=? Py.round q)%Z && (Py.round q <=? Z.of_nat (len dataset))%Z)%bool
    eqn:Eb.
  - apply andb_prop in Eb. destruct Eb as [E1 E2].
    apply Z.leb_le in E1. apply Z.leb_le in E2.
    destruct (@loader_of_size_valid dataset (Py.round q) g (conj E1 E2))
      as (idx & Hok & Hsh & Hl & _).
    destruct shuffle; [exact Hsh|].
    eexists. split; [exact Hok|]. exact Hl.
  - apply loader_of_size_invalid. intros [H0 H1].
    apply Z.leb_le in H0. apply Z.leb_le in H1. rewrite H0, H1 in Eb. discriminate.
Qed.

Lemma bagging_loader_f_failure_witness :
  match float_mul Num (Num (11 # 10))
          (float_of_int Num (Z.of_nat (len (example_dataset 10)))) with
  | NaN => bagging_loader_f Num (example_dataset 10) (Num (11 # 10)) false example_generator
           = (Raise ValueError, example_generator)
  | PInf | NInf =>
      bagging_loader_f Num (example_dataset 10) (Num (11 # 10)) false example_generator
      = (Raise OverflowError, example_generator)
  | Num product =>
      if ((0 <=? Py.round product)%Z
          && (Py.round product <=? Z.of_nat (len (example_dataset 10)))%Z)%bool
      then if false
           then fst (bagging_loader_f Num (example_dataset 10) (Num (11 # 10)) false
                       example_generator) = Raise ValueError
           else exists loader,
                  fst (bagging_loader_f Num (example_dataset 10) (Num (11 # 10)) false
                         example_generator) = Ok loader /\
                  Z.of_nat (length (bag loader)) = Py.round product
      else bagging_loader_f Num (example_dataset 10) (Num (11 # 10)) false
             example_generator = (Raise ValueError, example_generator)
  end.
Proof.
  exact (@bagging_loader_f_failure Num (example_dataset 10) (Num (11 # 10)) false
           example_generator).
Defined.

(** X2. The batches of indices that one pass over a loader made by
    [bagging_loader] requests: for a bag of [k] indices there are
    [floor(k / 8)] of them, each of 8 indices; the indices of a pass are
    pairwise distinct members of the bag, hence valid indices of the
    dataset. *)
Theorem bag_loader_batches :
  forall (rnd : Q -> Scalar) (dataset : CovidDataset) (percent : Scalar)
         (g tg : Generator) (loader : DataLoader),
    fst (bagging_loader_f rnd dataset percent false g) = Ok loader ->
    length (batch_sampler_iter (batch_size loader) (drop_last loader) []
              (fst (sampler_iter (sampler loader) tg)))
    = length (bag loader) / BATCH_SIZE /\
    Forall (fun b => length b = BATCH_SIZE)
           (batch_sampler_iter (batch_size loader) (drop_last loader) []
              (fst (sampler_iter (sampler loader) tg))) /\
    NoDup (concat (batch_sampler_iter (batch_size loader) (drop_last loader) []
                     (fst (sampler_iter (sampler loader) tg)))) /\
    Forall (fun i => In i (bag loader) /\ i < len dataset)
           (concat (batch_sampler_iter (batch_size loader) (drop_last loader) []
                      (fst (sampler_iter (sampler loader) tg)))).
Proof.
  intros rnd dataset percent g tg loader Hok.
  destruct (bagging_loader_f_ok _ _ _ _ Hok) as (q & _ & Hld & _ & Hnd & Hin).
  set (idx := bag loader) in *.
  assert (Hperm : Permutation (fst (sampler_iter (SubsetRandomSampler idx) tg)) idx).
  { cbn [sampler_iter].
    pose proof (randperm_permutation (length idx) tg) as Hp.
    destruct (randperm (length idx) tg) as [perm tg']. cbn [fst] in *.
    eapply perm_trans; [apply Permutation_map; exact Hp|].
    rewrite map_nth_seq_all. apply Permutation_refl. }
  assert (E : batch_sampler_iter (batch_size loader) (drop_last loader) []
                (fst (sampler_iter (sampler loader) tg))
              = batch_sampler_iter BATCH_SIZE true []
                  (fst (sampler_iter (SubsetRandomSampler idx) tg))).
  { rewrite Hld. reflexivity. }
  rewrite E. clear E.
  set (indices := fst (sampler_iter (SubsetRandomSampler idx) tg)) in *.
  assert (HB : 0 < BATCH_SIZE) by (unfold BATCH_SIZE; lia).
  destruct (@batch_sampler_drop_last BATCH_SIZE indices [] HB HB) as [Hall Hcat].
  cbn [length app Nat.add] in Hcat.
  set (batches := batch_sampler_iter BATCH_SIZE true [] indices) in *.
  assert (Hlen : length indices = length idx) by (apply Permutation_length; exact Hperm).
  split; [|split; [|split]].
  - pose proof (length_concat_uniform Hall) as E.
    rewrite Hcat, length_firstn, Hlen in E.
    pose proof (Nat.Div0.mul_div_le (length idx) BATCH_SIZE) as Hle.
    rewrite Nat.min_l in E by lia.
    apply Nat.mul_cancel_l in E; [symmetry; exact E | lia].
  - exact Hall.
  - rewrite Hcat. apply NoDup_firstn_of.
    eapply Permutation_NoDup; [apply Permutation_sym; exact Hperm | exact Hnd].
  - apply Forall_forall. intros x Hx. rewrite Hcat in Hx.
    apply incl_firstn_of in Hx.
    assert (Hxi : In x idx) by (eapply Permutation_in; [exact Hperm | exact Hx]).
    split; [exact Hxi|]. rewrite Forall_forall in Hin. apply Hin, Hxi.
Qed.

Lemma bag_loader_batches_witness :
  length (batch_sampler_iter BATCH_SIZE true []
            (fst (sampler_iter
                    (SubsetRandomSampler
                       [3; 10; 17; 24; 5; 13; 21; 6; 15; 29; 26; 4; 23; 9; 25; 20; 14; 27])
                    example_generator)))
  = length [3; 10; 17; 24; 5; 13; 21; 6; 15; 29; 26; 4; 23; 9; 25; 20; 14; 27] / BATCH_SIZE /\
  Forall (fun b => length b = BATCH_SIZE)
         (batch_sampler_iter BATCH_SIZE true []
            (fst (sampler_iter
                    (SubsetRandomSampler
                       [3; 10; 17; 24; 5; 13; 21; 6; 15; 29; 26; 4; 23; 9; 25; 20; 14; 27])
                    example_generator))) /\
  NoDup (concat (batch_sampler_iter BATCH_SIZE true []
            (fst (sampler_iter
                    (SubsetRandomSampler
                       [3; 10; 17; 24; 5; 13; 21; 6; 15; 29; 26; 4; 23; 9; 25; 20; 14; 27])
                    example_generator)))) /\
  Forall (fun i =>
            In i [3; 10; 17; 24; 5; 13; 21; 6; 15; 29; 26; 4; 23; 9; 25; 20; 14; 27] /\
            i < len (example_dataset 30))
         (concat (batch_sampler_iter BATCH_SIZE true []
            (fst (sampler_iter
                    (SubsetRandomSampler
                       [3; 10; 17; 24; 5; 13; 21; 6; 15; 29; 26; 4; 23; 9; 25; 20; 14; 27])
                    example_generator)))).
Proof.
  apply (@bag_loader_batches Num (example_dataset 30) (Num (6 # 10)) example_generator
           example_generator
           {| dataset := example_dataset 30;
              sampler := SubsetRandomSampler
                [3; 10; 17; 24; 5; 13; 21; 6; 15; 29; 26; 4; 23; 9; 25; 20; 14; 27];
              batch_size := BATCH_SIZE; drop_last := true |}).
  vm_compute. reflexivity.
Defined.

(** X3. The size of a bag is an integer nearest to the float product
    [percent * len(dataset)] that the code computes: it differs from the
    product by at most 1/2, and when the product lies halfway between two
    integers the size is the even one. *)
Theorem bag_size_nearest_product :
  forall (rnd : Q -> Scalar) (dataset : CovidDataset) (percent : Scalar)
         (g : Generator) (loader : DataLoader),
    fst (bagging_loader_f rnd dataset percent false g) = Ok loader ->
    exists product,
      float_mul rnd percent (float_of_int rnd (Z.of_nat (len dataset))) = Num product /\
      (Qabs (inject_Z (Z.of_nat (length (bag loader))) - product) <= 1 # 2)%Q /\
      ((product - inject_Z (Qfloor product) == 1 # 2)%Q ->
       Z.even (Z.of_nat (length (bag loader))) = true).
Proof.
  intros rnd dataset percent g loader Hok.
  destruct (bagging_loader_f_ok _ _ _ _ Hok) as (q & Hq & _ & Hl & _).
  exists q. split; [exact Hq|].
  destruct (round_nearest q) as [Hnear Htie].
  rewrite <- Hl in Hnear, Htie. split; assumption.
Qed.

Lemma bag_size_nearest_product_witness :
  exists product,
    float_mul Num (Num (35 # 100)) (float_of_int Num (Z.of_nat (len (example_dataset 10))))
    = Num product /\
    (Qabs (inject_Z (Z.of_nat (length [0; 9; 8; 7])) - product) <= 1 # 2)%Q /\
    ((product - inject_Z (Qfloor product) == 1 # 2)%Q ->
     Z.even (Z.of_nat (length [0; 9; 8; 7])) = true).
Proof.
  apply (@bag_size_nearest_product Num (example_dataset 10) (Num (35 # 100))
           {| raw := fun _ => 0; cursor := 0 |}
           {| dataset := example_dataset 10;
              sampler := SubsetRandomSampler [0; 9; 8; 7];
              batch_size := BATCH_SIZE; drop_last := true |}).
  vm_compute. reflexivity.
Defined.

(** ** Labels of the dataset *)

Lemma getitem_init_dir :
  forall (resolved : Pathlib.PurePath) (covid_names noncovid_names : list string)
         (i : nat) (d f : string),
    plain_name d = true -> plain_name f = true ->
    nth_error (covid_names ++ noncovid_names) i
    = Some (String.append d (String "/"%char f)) ->
    getitem (CovidDataset_init resolved covid_names noncovid_names) i
    = Ok ({| parent_name := d; name := f |},
          if String.eqb d "CT_COVID" then 1%Z else 0%Z).
Proof.
  intros resolved covid noncovid i d f Hd Hf Hi.
  unfold getitem, CovidDataset_init. cbn [images].
  rewrite !(@joinpath_plain resolved) by reflexivity.
  set (join := fun (dir s : string) =>
         Pathlib.joinpath {| Pathlib.root := Pathlib.root resolved;
                             Pathlib.parts := Pathlib.parts resolved ++ [dir] |} s).
  assert (Himg : forall dir,
            path_of (join dir (String.append d (String "/"%char f)))
            = {| parent_name := d; name := f |}).
  { intro dir. unfold join. rewrite (joinpath_dir _ _ _ Hd Hf).
    cbn [Pathlib.root Pathlib.parts].
    apply (path_of_child
             {| Pathlib.root := Pathlib.root resolved;
                Pathlib.parts := Pathlib.parts resolved ++ [dir] |}). }
  assert (E : nth_error
                (map path_of (map (join "CT_COVID"%string) covid
                              ++ map (join "CT_NonCOVID"%string) noncovid)) i
              = Some {| parent_name := d; name := f |}).
  { rewrite map_app, !map_map.
    destruct (Nat.lt_ge_cases i (length covid)) as [Hlt|Hge].
    - rewrite nth_error_app1 in Hi by exact Hlt.
      rewrite nth_error_app1 by (rewrite length_map; exact Hlt).
      rewrite (map_nth_error _ _ _ Hi). rewrite Himg. reflexivity.
    - rewrite nth_error_app2 in Hi by exact Hge.
      rewrite nth_error_app2 by (rewrite length_map; exact Hge).
      rewrite length_map, (map_nth_error _ _ _ Hi). rewrite Himg. reflexivity. }
  unfold join in E. rewrite E. reflexivity.
Qed.


(** X4. A run that reports an accuracy had at least one member and at
    least 8 test samples, and its labels are those of the samples in whole
    batches of 8: for [M] test samples it returns [8 * floor(M / 8)]
    labels, the last [M mod 8] samples being in no batch. *)
Theorem main_returns_whole_batches :
  forall (model_list : list nat)
         (load_from_checkpoint : nat -> SqueezenetTransferLearning)
         (testset : CovidDataset) (tg : Generator) (r : Aggregate),
    fst (main model_list load_from_checkpoint testset tg) = Ok r ->
    model_list <> [] /\
    BATCH_SIZE <= len testset /\
    length (pred_list r) = BATCH_SIZE * (len testset / BATCH_SIZE).
Proof.
  intros model_list load testset tg r Hok.
  destruct (main_ok_inv _ _ _ _ Hok) as [Hml HM].
  destruct (main_labels _ _ _ _ Hok) as (Hlen & _).
  split; [exact Hml|]. split; [exact HM | exact Hlen].
Qed.

Lemma main_returns_whole_batches_witness :
  [3; 4; 5] <> [] /\
  BATCH_SIZE <= len (example_dataset 20) /\
  length (pred_list example_result) = BATCH_SIZE * (len (example_dataset 20) / BATCH_SIZE).
Proof.
  apply (@main_returns_whole_batches [3; 4; 5] example_member (example_dataset 20)
           example_generator example_result).
  vm_compute. reflexivity.
Defined.



(** X10. For label files that list plain file names, the dataset has one
    sample per listed name, the samples of the COVID list first; whenever
    [__getitem__] returns a sample, its label is 1 for an index in the
    COVID list and 0 for an index in the other list; and an index past the
    end raises [IndexError]. *)
Theorem dataset_labels_follow_lists :
  forall (resolved : Pathlib.PurePath) (covid_names noncovid_names : list string)
         (i : nat) (img : Path) (label : Z),
    forallb plain_name covid_names = true ->
    forallb plain_name noncovid_names = true ->
    len (CovidDataset_init resolved covid_names noncovid_names)
    = length covid_names + length noncovid_names /\
    (getitem (CovidDataset_init resolved covid_names noncovid_names) i = Ok (img, label) ->
     i < length covid_names + length noncovid_names /\
     label = (if i <? length covid_names then 1%Z else 0%Z) /\
     parent_name img
     = (if i <? length covid_names then "CT_COVID"%string else "CT_NonCOVID"%string) /\
     name img = nth i (covid_names ++ noncovid_names) ""%string) /\
    (length covid_names + length noncovid_names <= i ->
     getitem (CovidDataset_init resolved covid_names noncovid_names) i = Raise IndexError).
Proof.
  intros resolved covid noncovid i img label Hc Hn.
  destruct (getitem_init resolved covid noncovid i Hc Hn) as [Hlen Hget].
  split; [exact Hlen|]. rewrite Hget. split.
  - destruct (i <? length covid) eqn:E1.
    + apply Nat.ltb_lt in E1. intro H. injection H as <- <-. cbn [parent_name name].
      rewrite app_nth1 by exact E1. repeat split; try reflexivity. lia.
    + apply Nat.ltb_ge in E1.
      destruct (i <? length covid + length noncovid) eqn:E2; [|discriminate].
      apply Nat.ltb_lt in E2. intro H. injection H as <- <-. cbn [parent_name name].
      rewrite app_nth2 by exact E1. repeat split; try reflexivity. exact E2.
  - intro Hi.
    assert (E1 : (i <? length covid) = false) by (apply Nat.ltb_ge; lia).
    assert (E2 : (i <? length covid + length noncovid) = false)
      by (apply Nat.ltb_ge; lia).
    rewrite E1, E2. reflexivity.
Qed.

Lemma dataset_labels_follow_lists_witness :
  len (CovidDataset_init {| Pathlib.root := "/"; Pathlib.parts := ["data"%string] |}
         ["a.png"%string; "b.png"%string] ["c.png"%string])
  = length ["a.png"%string; "b.png"%string] + length ["c.png"%string] /\
  (getitem (CovidDataset_init {| Pathlib.root := "/"; Pathlib.parts := ["data"%string] |}
              ["a.png"%string; "b.png"%string] ["c.png"%string]) 2
   = Ok ({| parent_name := "CT_NonCOVID"; name := "c.png" |}, 0%Z) ->
   2 < length ["a.png"%string; "b.png"%string] + length ["c.png"%string] /\
   0%Z = (if 2 <? length ["a.png"%string; "b.png"%string] then 1%Z else 0%Z) /\
   parent_name {| parent_name := "CT_NonCOVID"; name := "c.png" |}
   = (if 2 <? length ["a.png"%string; "b.png"%string]
      then "CT_COVID"%string else "CT_NonCOVID"%string) /\
   name {| parent_name := "CT_NonCOVID"; name := "c.png" |}
   = nth 2 (["a.png"%string; "b.png"%string] ++ ["c.png"%string]) ""%string) /\
  (length ["a.png"%string; "b.png"%string] + length ["c.png"%string] <= 2 ->
   getitem (CovidDataset_init {| Pathlib.root := "/"; Pathlib.parts := ["data"%string] |}
              ["a.png"%string; "b.png"%string] ["c.png"%string]) 2
   = Raise IndexError).
Proof.
  apply (@dataset_labels_follow_lists
           {| Pathlib.root := "/"; Pathlib.parts := ["data"%string] |}
           ["a.png"%string; "b.png"%string] ["c.png"%string] 2
           {| parent_name := "CT_NonCOVID"; name := "c.png" |} 0%Z).
  - reflexivity.
  - reflexivity.
Defined.

(** X11. The label of a sample is decided by the directory of its file,
    not by the list that names it: whenever [__getitem__] returns the
    sample of a listed name [d/f] with a directory component, its label is
    1 exactly when [d] is [CT_COVID], in either list. *)
Theorem label_by_directory :
  forall (resolved : Pathlib.PurePath) (covid_names noncovid_names : list string)
         (i : nat) (d f : string) (img : Path) (label : Z),
    plain_name d = true -> plain_name f = true ->
    nth_error (covid_names ++ noncovid_names) i
    = Some (String.append d (String "/"%char f)) ->
    getitem (CovidDataset_init resolved covid_names noncovid_names) i = Ok (img, label) ->
    label = (if String.eqb d "CT_COVID" then 1%Z else 0%Z) /\
    parent_name img = d /\ name img = f.
Proof.
  intros resolved covid noncovid i d f img label Hd Hf Hi Hget.
  rewrite (getitem_init_dir resolved covid noncovid i d f Hd Hf Hi) in Hget.
  injection Hget as <- <-. cbn [parent_name name]. repeat split; reflexivity.
Qed.

Lemma label_by_directory_witness :
  0%Z = (if String.eqb "lung" "CT_COVID" then 1%Z else 0%Z) /\
  parent_name {| parent_name := "lung"; name := "c.png" |} = "lung"%string /\
  name {| parent_name := "lung"; name := "c.png" |} = "c.png"%string.
Proof.
  apply (@label_by_directory
           {| Pathlib.root := "/"; Pathlib.parts := ["data"%string] |}
           ["lung/c.png"%string] ["a.png"%string] 0 "lung" "c.png"
           {| parent_name := "lung"; name := "c.png" |} 0%Z).
  - reflexivity.
  - reflexivity.
  - reflexivity.
  - reflexivity.
Defined.
